(** * nelfe: a shallow embedding of the librarian, the database controller
      and the start-up code, with the properties checked against them.

    Sources embedded here:
    - librarian.js, latest revision ([parse], the [fileExtensions] and
      [fuzzyNames] tables) and the earliest revision ([Librarian0.parse]);
    - db.js, revision with the Logs table ([db_log], [comparePassword],
      [db_user_authenticate], [mysql_real_escape_string], [formatDateSQL],
      [db_createDefaults], [db_settings_get], [db_settings_save]);
    - db.js, earlier revision ([DbSettings.getSettings], the [switch] on the
      setting type);
    - main.js, latest revision ([prepare] and the cron callback).

    The functions are [async]; an awaited call is modelled by its completion
    ([Return] for a fulfilled promise, [Throw] for a rejected one) and the
    world it leaves.  What Node, the file system, sqlite3 and bcrypt provide
    is a parameter, the record [Host].

    JavaScript strings are modelled as Rocq strings of bytes, a character
    outside ASCII being its UTF-8 bytes.  On a string of ASCII characters
    [toLowerCase] and [toUpperCase] change the case of the letters; on any
    other string they are what the host says, Unicode case mapping not being
    modelled.  Node's [path.join] is the POSIX one. *)

From Stdlib Require Import Ascii ZArith Lia Bool.
From stdpp Require Import base strings gmap list pretty.

Local Set Warnings "-register-all".

(** ** JavaScript values and completions *)

Inductive JsVal :=
| JUndefined
| JNull
| JBool (b : bool)
| JNumber (n : Z)
| JNaN
| JString (s : string)
| JDate (src : string)
| JArray (items : list JsVal)
| JObject (fields : list (string * JsVal)).

(** A plain object under construction, as [let settings = {}] and the
    assignments [settings[key] = value] leave it: its own properties, and
    its prototype when an assignment has changed it ([None] is
    [Object.prototype]). *)
Record PlainObject := {
  own_properties : gmap string JsVal;
  prototype : option JsVal
}.

Definition empty_object : PlainObject :=
  {| own_properties := ∅; prototype := None |}.

(** Whether [__proto__] still names the accessor of [Object.prototype] for
    the object: not when its prototype has become [null], and not when the
    prototype is an object with an own property of that name, as
    [JSON.parse] creates one. *)
Definition proto_accessor_inherited (o : PlainObject) : bool :=
  match prototype o with
  | None => true
  | Some JNull => false
  | Some (JObject fields) => negb (existsb (String.eqb "__proto__") (fields.*1))
  | Some _ => true
  end.

(** [o[key] = v].  Through the accessor the key [__proto__] creates no own
    property: the assignment sets the prototype when [v] is an object or
    [null] and does nothing otherwise.  Every other assignment creates or
    overwrites an own property. *)
Definition set_property (key : string) (v : JsVal) (o : PlainObject) : PlainObject :=
  if String.eqb key "__proto__" && proto_accessor_inherited o then
    match v with
    | JNull | JDate _ | JArray _ | JObject _ =>
        {| own_properties := own_properties o; prototype := Some v |}
    | JUndefined | JBool _ | JNumber _ | JNaN | JString _ => o
    end
  else {| own_properties := <[key := v]> (own_properties o);
          prototype := prototype o |}.

Inductive ErrorKind := TypeError | ReferenceError | SyntaxError | SystemError.

(** What a [throw] (or a rejected promise) carries: an Error object or a
    plain value, as in [reject(false)] or [reject(2)]. *)
Inductive Thrown :=
| ErrorObject (kind : ErrorKind) (message : string)
| ThrownValue (v : JsVal).

Inductive Completion (A : Type) :=
| Return (a : A)
| Throw (e : Thrown).
Arguments Return {A} a.
Arguments Throw {A} e.

(** ** String.prototype methods used by the sources *)

Definition lower_char (c : ascii) : ascii :=
  let n := Ascii.nat_of_ascii c in
  if (65 <=? n)%nat && (n <=? 90)%nat then Ascii.ascii_of_nat (n + 32) else c.

Definition upper_char (c : ascii) : ascii :=
  let n := Ascii.nat_of_ascii c in
  if (97 <=? n)%nat && (n <=? 122)%nat then Ascii.ascii_of_nat (n - 32) else c.

(** Every character of the string is an ASCII character. *)
Fixpoint is_ascii (s : string) : bool :=
  match s with
  | EmptyString => true
  | String c r => (Ascii.nat_of_ascii c <? 128)%nat && is_ascii r
  end.

(** Case change of the letters a to z and A to Z. *)
Fixpoint lower_ascii (s : string) : string :=
  match s with
  | EmptyString => EmptyString
  | String c r => String (lower_char c) (lower_ascii r)
  end.

Fixpoint upper_ascii (s : string) : string :=
  match s with
  | EmptyString => EmptyString
  | String c r => String (upper_char c) (upper_ascii r)
  end.

Fixpoint startsWith (s searchString : string) : bool :=
  match searchString, s with
  | EmptyString, _ => true
  | String _ _, EmptyString => false
  | String k ks, String c r => if Ascii.eqb k c then startsWith r ks else false
  end.

(** [s.includes(searchString)] *)
Fixpoint includes (s searchString : string) : bool :=
  startsWith s searchString ||
  match s with
  | EmptyString => false
  | String _ r => includes r searchString
  end.

(** [s.includes(c)] for a single character. *)
Fixpoint includes_char (s : string) (c : ascii) : bool :=
  match s with
  | EmptyString => false
  | String d r => Ascii.eqb c d || includes_char r c
  end.

(** ** path.join (POSIX) *)

Fixpoint split_slash (s : string) : list string :=
  match s with
  | EmptyString => [EmptyString]
  | String c r =>
      if Ascii.eqb c "/" then EmptyString :: split_slash r
      else match split_slash r with
           | [] => [String c EmptyString]
           | seg :: rest => String c seg :: rest
           end
  end.

(** The segment stack of [normalizeString], most recent segment first. *)
Fixpoint normalize_segments (allowAboveRoot : bool) (segs : list string)
    (stack : list string) : list string :=
  match segs with
  | [] => stack
  | seg :: rest =>
      if String.eqb seg "" || String.eqb seg "." then
        normalize_segments allowAboveRoot rest stack
      else if String.eqb seg ".." then
        match stack with
        | top :: below =>
            if String.eqb top ".." then
              normalize_segments allowAboveRoot rest (seg :: stack)
            else normalize_segments allowAboveRoot rest below
        | [] =>
            if allowAboveRoot
            then normalize_segments allowAboveRoot rest [seg]
            else normalize_segments allowAboveRoot rest []
        end
      else normalize_segments allowAboveRoot rest (seg :: stack)
  end.

Fixpoint join_slash (segs : list string) : string :=
  match segs with
  | [] => ""
  | [seg] => seg
  | seg :: rest => seg +:+ "/" +:+ join_slash rest
  end.

Fixpoint endsWith_slash (s : string) : bool :=
  match s with
  | EmptyString => false
  | String c EmptyString => Ascii.eqb c "/"
  | String _ r => endsWith_slash r
  end.

Definition path_normalize (p : string) : string :=
  if String.eqb p "" then "." else
  let isAbsolute := startsWith p "/" in
  let trailingSeparator := endsWith_slash p in
  let body :=
    join_slash (rev (normalize_segments (negb isAbsolute) (split_slash p) [])) in
  if String.eqb body "" then
    if isAbsolute then "/" else if trailingSeparator then "./" else "."
  else
    let body := if trailingSeparator then body +:+ "/" else body in
    if isAbsolute then "/" +:+ body else body.

Definition path_join (a b : string) : string :=
  match negb (String.eqb a ""), negb (String.eqb b "") with
  | false, false => "."
  | true, false => path_normalize a
  | false, true => path_normalize b
  | true, true => path_normalize (a +:+ "/" +:+ b)
  end.

(** ** librarian.js: the tables and the directory classification *)

Inductive MediaType := movie | music | books | photo.

#[global] Instance MediaType_eq_dec : EqDecision MediaType.
Proof. solve_decision. Defined.

Definition fileExtensions (t : MediaType) : list string :=
  match t with
  | movie => ["mkv"; "mp4"; "mov"; "avi"]
  | music => ["mp3"; "wav"; "wav"]
  | books => ["epub"; "pdf"]
  | photo => ["jpg"; "jpeg"; "png"]
  end.

Definition fuzzyNames (t : MediaType) : list string :=
  match t with
  | movie => ["movie"; "video"]
  | music => ["music"; "audio"; "song"]
  | books => ["book"; "documents"; "epub"; "pdf"]
  | photo => ["photo"; "picture"]
  end.

(** [fuzzyNames.t.some(fuzzyName => dirName.includes(fuzzyName))] *)
Definition some_includes (t : MediaType) (dirName : string) : bool :=
  existsb (fun fuzzyName => includes dirName fuzzyName) (fuzzyNames t).

(** The four [let] variables of [parse]; [None] is [undefined]. *)
Record MediaPaths := {
  moviePath : option string;
  musicPath : option string;
  photoPath : option string;
  bookPath : option string
}.

Definition noPaths : MediaPaths :=
  {| moviePath := None; musicPath := None; photoPath := None; bookPath := None |}.

(** Truthiness of a variable that holds [undefined] or a string. *)
Definition truthy (v : option string) : bool :=
  match v with
  | None => false
  | Some s => negb (String.eqb s "")
  end.

Definition pathOf (t : MediaType) (p : MediaPaths) : option string :=
  match t with
  | movie => moviePath p
  | music => musicPath p
  | books => bookPath p
  | photo => photoPath p
  end.

Definition setPath (t : MediaType) (v : string) (p : MediaPaths) : MediaPaths :=
  match t with
  | movie => {| moviePath := Some v; musicPath := musicPath p;
                photoPath := photoPath p; bookPath := bookPath p |}
  | music => {| moviePath := moviePath p; musicPath := Some v;
                photoPath := photoPath p; bookPath := bookPath p |}
  | books => {| moviePath := moviePath p; musicPath := musicPath p;
                photoPath := photoPath p; bookPath := Some v |}
  | photo => {| moviePath := moviePath p; musicPath := musicPath p;
                photoPath := Some v; bookPath := bookPath p |}
  end.

(** One of the four lines
    [if (fuzzyNames.t.some(...) && !tPath) tPath = path.join(rootPath, dirName);] *)
Definition assignIfMatch (t : MediaType) (rootPath dirName : string)
    (p : MediaPaths) : MediaPaths :=
  if some_includes t dirName && negb (truthy (pathOf t p))
  then setPath t (path_join rootPath dirName) p
  else p.

(** The body of [if (file.isDirectory()) { ... }], after
    [const dirName = file.toLowerCase()]: movie, music, books, photo, in the
    order of the source. *)
Definition assignPaths (rootPath dirName : string) (p : MediaPaths) : MediaPaths :=
  assignIfMatch photo rootPath dirName
    (assignIfMatch books rootPath dirName
      (assignIfMatch music rootPath dirName
        (assignIfMatch movie rootPath dirName p))).

(** ** The database nelfe.db

    A stored value is recorded as its text. *)

Record UserRow := {
  AccountID : Z;
  AccountName : string;
  Password : string;
  DisplayName : string;
  IsAdmin : bool;
  IsDisabled : bool;
  Created : string;
  LastLogin : string
}.

Record SettingRow := {
  Key : string;
  Value : string;
  Type_ : string
}.

Record LogRow := {
  UUID : string;
  DateTime : string;
  Level : string;
  Message : string
}.

(** A table is [None] until its CREATE TABLE has run. *)
Record Database := {
  Users : option (list UserRow);
  Settings : option (list SettingRow);
  Logs : option (list LogRow)
}.

(** ** The host: Node, the file system, sqlite3, bcrypt *)

(** Outcome of a statement handed to sqlite3. *)
Inductive SqlOutcome (A : Type) :=
| SqlOk (a : A)
| SqlError (message : string).
Arguments SqlOk {A} a.
Arguments SqlError {A} message.

Record Host := {
  (** [fs.promises.access(p)] fulfils *)
  fs_access : string -> bool;
  (** [String(err)] for the error [fs.promises.access(p)] rejects with *)
  fs_access_error : string -> string;
  (** [fs.promises.readdir(p)], without options: the names, or a rejection *)
  fs_readdir : string -> option (list string);
  (** the bytes of a regular file; no source file reads them *)
  fs_readFile : string -> option string;
  (** [process.env.LIBRARY_ROOT] *)
  LIBRARY_ROOT : option string;
  (** [crypto.randomUUID()] and [new Date().toISOString()], by reading number *)
  randomUUID : nat -> string;
  toISOString : nat -> string;
  (** what sqlite3 makes of the text of an INSERT or REPLACE statement in
      which an interpolated text ends its literal early, so that the rest of
      the text is read as SQL: the error it raises, or the rows of values
      the statement stores *)
  sqlite_insert : string -> SqlOutcome (list (list string));
  (** the same for a SELECT on the Users table: the error, or the rows the
      statement returns when the table holds the given rows *)
  sqlite_select : string -> list UserRow -> SqlOutcome (list UserRow);
  (** [s.toLowerCase()] and [s.toUpperCase()] on a string that holds a
      character outside ASCII, as the first character of the result and the
      rest: case mapping removes no character, so the result is not empty *)
  unicode_toLowerCase : string -> ascii * string;
  unicode_toUpperCase : string -> ascii * string;
  (** [bcrypt.hash(data, 10, cb)]: the hash, or [None] when [cb] gets an error *)
  bcrypt_hash : string -> option string;
  (** [bcrypt.compare(data, hash, cb)]: the boolean passed as [res], or
      [None] when [cb] gets an error *)
  bcrypt_compare : JsVal -> JsVal -> option bool;
  (** [JSON.parse(text)], [None] when it throws a SyntaxError *)
  JSON_parse : string -> option JsVal;
  (** [parseInt(text)] *)
  parseInt : string -> JsVal
}.

(** [s.toLowerCase()] and [s.toUpperCase()] *)
Definition toLowerCase (h : Host) (s : string) : string :=
  if is_ascii s then lower_ascii s
  else String (unicode_toLowerCase h s).1 (unicode_toLowerCase h s).2.

Definition toUpperCase (h : Host) (s : string) : string :=
  if is_ascii s then upper_ascii s
  else String (unicode_toUpperCase h s).1 (unicode_toUpperCase h s).2.

(** Modelled from the spec: the catalog store and its MediaItem rows.  No
    source file declares a catalog table or writes one; the fields follow
    section 3 of the specification. *)
Inductive ItemStatus := active | missing.

Record MediaItem := {
  contentId : string;
  mediaType : MediaType;
  currentPath : string;
  status : ItemStatus;
  firstSeen : nat;
  lastSeen : nat;
  userMetadata : list (string * string)
}.

(** ** The world a run acts on *)

Inductive ConsoleLine :=
| console_debug (s : string)
| console_log (s : string)
| console_warn (s : string)
| console_error (s : string)
| console_log_object (o : PlainObject).

Inductive FsCall :=
| fs_promises_access (p : string)
| fs_promises_readdir (p : string).

(** A job registered with [cron.schedule]: the pattern, and the root path
    its callback passes to [librarian.parse]. *)
Record CronJob := {
  pattern : string;
  job_root : string
}.

Record World := {
  db : Database;
  console : list ConsoleLine;
  fs_calls : list FsCall;
  cron_jobs : list CronJob;
  catalog : list MediaItem;
  (** number of readings of the clock and of the random source so far *)
  readings : nat
}.

Definition with_db (d : Database) (w : World) : World :=
  {| db := d; console := console w; fs_calls := fs_calls w;
     cron_jobs := cron_jobs w; catalog := catalog w; readings := readings w |}.

Definition with_console (c : list ConsoleLine) (w : World) : World :=
  {| db := db w; console := c; fs_calls := fs_calls w;
     cron_jobs := cron_jobs w; catalog := catalog w; readings := readings w |}.

Definition with_fs_calls (c : list FsCall) (w : World) : World :=
  {| db := db w; console := console w; fs_calls := c;
     cron_jobs := cron_jobs w; catalog := catalog w; readings := readings w |}.

Definition with_cron_jobs (j : list CronJob) (w : World) : World :=
  {| db := db w; console := console w; fs_calls := fs_calls w;
     cron_jobs := j; catalog := catalog w; readings := readings w |}.

Definition with_readings (n : nat) (w : World) : World :=
  {| db := db w; console := console w; fs_calls := fs_calls w;
     cron_jobs := cron_jobs w; catalog := catalog w; readings := n |}.

(** ** The monad of the embedded functions: state and exceptions *)

Definition Js (A : Type) : Type := World -> Completion A * World.

#[global] Instance Js_ret : MRet Js := fun A a w => (Return a, w).
#[global] Instance Js_bind : MBind Js := fun A B f m w =>
  match m w with
  | (Return a, w') => f a w'
  | (Throw e, w') => (Throw e, w')
  end.

Definition throw {A} (e : Thrown) : Js A := fun w => (Throw e, w).

Definition lift {A} (c : Completion A) : Js A := fun w => (c, w).

Definition modify (f : World -> World) : Js unit := fun w => (Return tt, f w).

Definition console_write (l : ConsoleLine) : Js unit :=
  modify (fun w => with_console (console w ++ [l]) w).

(** ** db.js: helpers *)

Definition backslash : string := String "092"%char EmptyString.
Definition dquote : string := String "034"%char EmptyString.

(** The replacement function of [mysql_real_escape_string], on one
    character; characters outside the class are kept. *)
Definition escape_char (c : ascii) : string :=
  match Ascii.nat_of_ascii c with
  | 0%nat => backslash +:+ "0"
  | 8%nat => backslash +:+ "b"
  | 9%nat => backslash +:+ "t"
  | 26%nat => backslash +:+ "z"
  | 10%nat => backslash +:+ "n"
  | 13%nat => backslash +:+ "r"
  | 34%nat | 39%nat | 92%nat | 37%nat => backslash +:+ String c EmptyString
  | _ => String c EmptyString
  end.

Fixpoint mysql_real_escape_string (str : string) : string :=
  match str with
  | EmptyString => EmptyString
  | String c r => escape_char c +:+ mysql_real_escape_string r
  end.

(** [str.replace('T', ' ')]: the first occurrence only. *)
Fixpoint replace_T (s : string) : string :=
  match s with
  | EmptyString => EmptyString
  | String c r => if Ascii.eqb c "T" then String " " r else String c (replace_T r)
  end.

(** [formatDateSQL(date, isDATETIME)], on [date.toISOString()]. *)
Definition formatDateSQL (iso : string) (isDATETIME : bool) : string :=
  let SQLDate := String.substring 0 10 iso in
  if isDATETIME
  then SQLDate +:+ replace_T (String.substring 10 9 iso)
  else SQLDate.

(** ** A [switch] whose clauses have no [break]

    The clauses are given in source order, [None] labelling [default].
    Control enters at the first clause whose label equals the scrutinee,
    otherwise at [default] if there is one, and runs every clause from there
    to the end of the statement. *)

Fixpoint clauses_from_case {B} (v : string) (clauses : list (option string * B))
    : option (list B) :=
  match clauses with
  | [] => None
  | (Some label, body) :: rest =>
      if String.eqb label v then Some (body :: map snd rest)
      else clauses_from_case v rest
  | (None, _) :: rest => clauses_from_case v rest
  end.

Fixpoint clauses_from_default {B} (clauses : list (option string * B)) : list B :=
  match clauses with
  | [] => []
  | (None, body) :: rest => body :: map snd rest
  | (Some _, _) :: rest => clauses_from_default rest
  end.

Definition switch_no_break {B} (v : string) (clauses : list (option string * B))
    : list B :=
  match clauses_from_case v clauses with
  | Some bodies => bodies
  | None => clauses_from_default clauses
  end.

(** ** db.js (revision with the Logs table) *)

Definition with_Users (rows : option (list UserRow)) (d : Database) : Database :=
  {| Users := rows; Settings := Settings d; Logs := Logs d |}.

Definition with_Settings (rows : option (list SettingRow)) (d : Database) : Database :=
  {| Users := Users d; Settings := rows; Logs := Logs d |}.

Definition with_Logs (rows : option (list LogRow)) (d : Database) : Database :=
  {| Users := Users d; Settings := Settings d; Logs := rows |}.

(** *** Statements with interpolated texts

    The statements are template literals: a text is put between two single
    quotes as it is.  To sqlite a string literal ends at the first single
    quote that is not doubled, the backslash has no meaning in it, and a NUL
    ends the statement.  So a text without single quote and without NUL is
    the value of its literal; any other text ends the literal early and the
    rest of it is read as SQL, with what the host says sqlite makes of the
    whole statement.  [database.all] runs the first statement of the text
    only. *)
Definition sqlite_plain (text : string) : bool :=
  negb (includes_char text "'") && negb (includes_char text "000").

Definition newline : string := String "010"%char EmptyString.

Fixpoint spaces (n : nat) : string :=
  match n with
  | O => EmptyString
  | S n' => String " "%char (spaces n')
  end.

(** The text of the INSERT of [db.log], line breaks and indentation of the
    template literal included. *)
Definition insert_into_Logs_text (uuid dateTime level body : string) : string :=
  "INSERT INTO Logs (UUID," +:+ newline +:+ spaces 25 +:+ "DateTime," +:+ newline
  +:+ spaces 25 +:+ "Level," +:+ newline +:+ spaces 25 +:+ "Message)" +:+ newline
  +:+ spaces 17 +:+ "VALUES ('" +:+ uuid +:+ "'," +:+ newline
  +:+ spaces 25 +:+ "'" +:+ dateTime +:+ "'," +:+ newline
  +:+ spaces 25 +:+ "'" +:+ level +:+ "'," +:+ newline
  +:+ spaces 25 +:+ "'" +:+ body +:+ "');".

(** A row of values for the four columns of the Logs table. *)
Definition LogRow_of_values (values : list string) : option LogRow :=
  match values with
  | [uuid; dateTime; level; message] =>
      Some {| UUID := uuid; DateTime := dateTime; Level := level; Message := message |}
  | _ => None
  end.

(** [INSERT INTO Logs (UUID, DateTime, Level, Message)
     VALUES ('uuid', 'dateTime', 'level', 'body');]
    The first three texts hold no single quote: [crypto.randomUUID()] gives
    hexadecimal digits and hyphens, [formatDateSQL] of an ISO date digits,
    hyphens, colons and a space, and the level is one of [logLevels].  The
    body is any text.  An INSERT can only add rows to its table; the Logs
    table has no constraint and no trigger. *)
Definition insert_into_Logs (h : Host) (uuid dateTime level body : string)
    (d : Database) : SqlOutcome Database :=
  if sqlite_plain body then
    match Logs d with
    | None => SqlError "SQLITE_ERROR: no such table: Logs"
    | Some rows =>
        SqlOk (with_Logs (Some (rows ++
                 [{| UUID := uuid; DateTime := dateTime;
                     Level := level; Message := body |}])) d)
    end
  else
    match sqlite_insert h (insert_into_Logs_text uuid dateTime level body) with
    | SqlError msg => SqlError msg
    | SqlOk tuples =>
        match Logs d, mapM LogRow_of_values tuples with
        | None, _ => SqlError "SQLITE_ERROR: no such table: Logs"
        | Some rows, Some added => SqlOk (with_Logs (Some (rows ++ added)) d)
        | Some rows, None => SqlError "SQLITE_ERROR: the values do not fill 4 columns"
        end
    end.

Definition logLevels : list string := ["DEBUG"; "INFO"; "WARNING"; "ERROR"].

(** The console [switch] of [db.log]; none of its clauses ends in [break]. *)
Definition log_console_clauses (consoleOutput : string)
    : list (option string * ConsoleLine) :=
  [ (Some "DEBUG", console_debug consoleOutput);
    (Some "INFO", console_log consoleOutput);
    (Some "WARNING", console_warn consoleOutput);
    (Some "ERROR", console_error consoleOutput);
    (None, console_log consoleOutput) ].

(** Primitive actions on the world. *)

Definition console_write_all (ls : list ConsoleLine) : Js unit :=
  modify (fun w => with_console (console w ++ ls) w).

(** [new Date().toISOString()] and [crypto.randomUUID()], read together. *)
Definition take_reading (h : Host) : Js (string * string) :=
  fun w => (Return (toISOString h (readings w), randomUUID h (readings w)),
            with_readings (S (readings w)) w).

(** [await dbPromiseExecSQL(conn, statement)] inside a [try]: the error
    message when the promise rejects. *)
Definition exec_sql (statement : Database -> SqlOutcome Database)
    : Js (option string) :=
  fun w =>
    match statement (db w) with
    | SqlOk d => (Return None, with_db d w)
    | SqlError msg => (Return (Some msg), w)
    end.

Definition modify_db (f : Database -> Database) : Js unit :=
  modify (fun w => with_db (f (db w)) w).

(** [(await dbPromiseExecSQL(conn, "SELECT name FROM sqlite_master WHERE
    type='table' AND name='...'")).length > 0] *)
Definition table_exists {R} (table : Database -> option (list R)) : Js bool :=
  fun w => (Return (bool_decide (is_Some (table (db w)))), w).

(** [db.log(message, level, suppressOutput)].  [level] is [None] when the
    argument is omitted.  The only statement of the [try] block that can
    throw is the INSERT; the [catch] clause prints the error and the call
    still returns normally.  The callers do not await the call; its effects
    are taken in call order. *)
Definition db_log (h : Host) (message : string) (level : option string)
    (suppressOutput : bool) : Js JsVal :=
  if String.eqb message "" then
    console_write (console_error "Error (db.log): Log message can not be undefined");;
    mret JUndefined
  else
    let level :=
      match level with
      | None => "INFO"
      | Some l => if String.eqb l "" then "INFO" else l
      end in
    level ← ((if negb (existsb (String.eqb (toUpperCase h level)) logLevels)
              then console_write (console_error
                     ("Error (db.log): Supplied log level is not valid, defaulting to "
                      +:+ dquote +:+ "INFO" +:+ dquote));;
                   mret "INFO"
              else mret level) : Js string);
    '(logDate, uuid) ← take_reading h;
    err ← exec_sql (insert_into_Logs h uuid (formatDateSQL logDate true)
                      (toUpperCase h level) (mysql_real_escape_string message));
    match err with
    | Some msg =>
        console_write (console_error ("Error: Error: " +:+ msg));;
        mret JUndefined
    | None =>
        let consoleOutput := "[" +:+ formatDateSQL logDate true +:+ "]" +:+ message in
        (if suppressOutput then mret tt
         else console_write_all
                (switch_no_break (toUpperCase h level)
                   (log_console_clauses consoleOutput)));;
        mret (JBool true)
    end.

(** [hashPassword(password)], awaited. *)
Definition hashPassword (h : Host) (password : string) : Completion string :=
  match bcrypt_hash h password with
  | None => Throw (ErrorObject SystemError "bcrypt")
  | Some hash => Return hash
  end.

(** [comparePassword(password, hashed)], awaited: the callback of
    [bcrypt.compare] rejects with [false] on an error and resolves with
    [true] otherwise, whatever [res] is. *)
Definition comparePassword (h : Host) (password hashed : JsVal) : Completion JsVal :=
  match bcrypt_compare h password hashed with
  | None => Throw (ThrownValue (JBool false))
  | Some res => Return (JBool true)
  end.

(** [CREATE TABLE if not exists T (...)] for the three tables. *)
Definition create_table_Users (d : Database) : Database :=
  match Users d with
  | Some _ => d
  | None => with_Users (Some []) d
  end.

Definition create_table_Settings (d : Database) : Database :=
  match Settings d with
  | Some _ => d
  | None => with_Settings (Some []) d
  end.

Definition create_table_Logs (d : Database) : Database :=
  match Logs d with
  | Some _ => d
  | None => with_Logs (Some []) d
  end.

(** [INSERT INTO Users (...) VALUES (...)] and [INSERT INTO Settings
    VALUES (...)], whose values hold no quote. *)
Definition insert_into_Users (account : UserRow) (d : Database) : Database :=
  with_Users ((fun rows => rows ++ [account]) <$> Users d) d.

Definition insert_into_Settings (setting : SettingRow) (d : Database) : Database :=
  with_Settings ((fun rows => rows ++ [setting]) <$> Settings d) d.

Definition admin_account (hash created : string) : UserRow :=
  {| AccountID := 0; AccountName := "admin"; Password := hash;
     DisplayName := "Admin"; IsAdmin := true; IsDisabled := false;
     Created := created;
     LastLogin := formatDateSQL "1970-01-01T00:00:00.000Z" true |}.

(** [db.createDefaults()] *)
Definition db_createDefaults (h : Host) : Js JsVal :=
  usersTableExists ← table_exists Users;
  (if negb usersTableExists then
     console_write (console_log "Users database table does not exist, creating...");;
     modify_db create_table_Users;;
     console_write_all
       [console_log "   DONE!";
        console_log "Creating the initial admin user used for access...";
        console_log "   Username:Password - admin:admin"];;
     hash ← lift (hashPassword h "admin");
     '(now, _) ← take_reading h;
     modify_db (insert_into_Users (admin_account hash (formatDateSQL now false)));;
     console_write (console_log "   DONE!")
   else mret tt);;
  settingsTableExists ← table_exists Settings;
  (if negb settingsTableExists then
     console_write (console_log "Settings database table does not exist, creating...");;
     modify_db create_table_Settings;;
     modify_db (insert_into_Settings
       {| Key := "LISTEN_PORT"; Value := "3080"; Type_ := "number" |});;
     console_write (console_log "   DONE!")
   else mret tt);;
  logTableExists ← table_exists Logs;
  (if negb logTableExists then
     console_write (console_log "Logs database table does not exist, creating...");;
     modify_db create_table_Logs;;
     console_write (console_log "   DONE!")
   else mret tt);;
  mret (JBool true).

(** ** librarian.js, latest revision *)

Definition fs_promises_access_call (h : Host) (p : string) : Js bool :=
  fun w => (Return (fs_access h p),
            with_fs_calls (fs_calls w ++ [fs_promises_access p]) w).

Definition fs_promises_readdir_call (h : Host) (p : string) : Js (list string) :=
  fun w =>
    let w := with_fs_calls (fs_calls w ++ [fs_promises_readdir p]) w in
    match fs_readdir h p with
    | Some names => (Return names, w)
    | None => (Throw (ErrorObject SystemError ("readdir '" +:+ p +:+ "'")), w)
    end.

(** [x.isDirectory()] where [x] is one of the names [readdir] returned: a
    string has no [isDirectory] property, so the call throws.  The result
    type is the one the call sites expect. *)
Definition string_isDirectory (receiver : string) (x : string) : Completion bool :=
  Throw (ErrorObject TypeError (receiver +:+ ".isDirectory is not a function")).

(** The callback of [rootContents.forEach]. *)
Definition forEach_file (h : Host) (rootPath file : string) (p : MediaPaths)
    : Js MediaPaths :=
  isDir ← lift (string_isDirectory "file" file);
  db_log h ("[LIBRARIAN] -- " +:+ (if isDir : bool then "(directory) " else "")
            +:+ path_join rootPath file) None false;;
  isDir ← lift (string_isDirectory "file" file);
  if isDir : bool
  then mret (assignPaths rootPath (toLowerCase h file) p)
  else mret p.

(** [rootContents.forEach(file => ...)]: the completion of the loop, the
    four variables as the loop leaves them, and the world. *)
Fixpoint forEach_rootContents (h : Host) (rootPath : string) (files : list string)
    (p : MediaPaths) (w : World) : Completion unit * MediaPaths * World :=
  match files with
  | [] => (Return tt, p, w)
  | file :: rest =>
      match forEach_file h rootPath file p w with
      | (Return p', w') => forEach_rootContents h rootPath rest p' w'
      | (Throw e, w') => (Throw e, p, w')
      end
  end.

(** [if (tPath) db.log(`[LIBRARIAN] Assuming T directory is "${tPath}"`);] *)
Definition notify (h : Host) (label : string) (v : option string) : Js unit :=
  match v with
  | Some path =>
      if truthy v
      then db_log h ("[LIBRARIAN] Assuming " +:+ label +:+ " directory is "
                     +:+ dquote +:+ path +:+ dquote) None false;;
           mret tt
      else mret tt
  | None => mret tt
  end.

(** From [db.log(`[LIBRARIAN] Loaded source directory ...`)] to the last of
    the four notifications. *)
Definition identify_media_paths (h : Host) (rootPath : string)
    (rootContents : list string) : Js MediaPaths :=
  db_log h ("[LIBRARIAN] Loaded source directory " +:+ dquote +:+ rootPath +:+ dquote)
         None false;;
  paths ← (fun w =>
             match forEach_rootContents h rootPath rootContents noPaths w with
             | (Return _, p, w') => (Return p, w')
             | (Throw e, _, w') => (Throw e, w')
             end) : Js MediaPaths;
  notify h "MOVIE" (moviePath paths);;
  notify h "MUSIC" (musicPath paths);;
  notify h "PHOTO" (photoPath paths);;
  notify h "BOOK" (bookPath paths);;
  mret paths.

(** The directories [parse] reads into [mediaContents], with their keys, in
    the order of the four [if (tPath) mediaContents[k] = await ...] lines. *)
Definition media_directories (paths : MediaPaths) : list (string * string) :=
  omap (fun '(k, v) => if truthy v then pair k <$> v else None)
       [("movie", moviePath paths); ("music", musicPath paths);
        ("photo", photoPath paths); ("book", bookPath paths)].

(** [mediaContents] keeps its entries in insertion order, which is the order
    [Object.entries] lists them in. *)
Fixpoint read_media_contents (h : Host) (pending : list (string * string))
    (mediaContents : list (string * list string)) : Js (list (string * list string)) :=
  match pending with
  | [] => mret mediaContents
  | (k, dir) :: rest =>
      names ← fs_promises_readdir_call h dir;
      read_media_contents h rest (mediaContents ++ [(k, names)])
  end.

(** The callback of [mediaDirectory.forEach]; both branches are empty. *)
Definition forEach_item (item : string) : Js unit :=
  isDir ← lift (string_isDirectory "item" item);
  if isDir : bool then mret tt else mret tt.

Fixpoint forEach {A} (callback : A -> Js unit) (l : list A) : Js unit :=
  match l with
  | [] => mret tt
  | x :: rest => callback x;; forEach callback rest
  end.

(** [for (const [mediaType, mediaDirectory] of Object.entries(mediaContents))] *)
Definition traverse_media_contents (mediaContents : list (string * list string))
    : Js unit :=
  forEach (fun '(mediaType, mediaDirectory) => forEach forEach_item mediaDirectory)
          mediaContents.

Definition unable_to_access (rootPath : string) : string :=
  "[LIBRARIAN] Unable to access " +:+ dquote +:+ rootPath +:+ dquote
  +:+ ", new library will not be parsed.".

(** [parse(rootPath)], awaited. *)
Definition parse (h : Host) (rootPath : string) : Js JsVal :=
  accessible ← fs_promises_access_call h rootPath;
  if negb accessible then
    db_log h (unable_to_access rootPath) (Some "error") false;;
    mret (JBool false)
  else
    rootContents ← fs_promises_readdir_call h rootPath;
    paths ← identify_media_paths h rootPath rootContents;
    mediaContents ← read_media_contents h (media_directories paths) [];
    traverse_media_contents mediaContents;;
    mret JUndefined.

(** *** The same function, one [await] at a time

    A call of [parse] that has not settled is suspended at one of its
    [await]s. *)
Inductive Run :=
| AwaitingAccess (rootPath : string)
| AwaitingRootContents (rootPath : string)
| AwaitingMediaContents (k dir : string) (rest : list (string * string))
    (mediaContents : list (string * list string))
| Settled (c : Completion JsVal).

Definition in_progress (r : Run) : bool :=
  match r with
  | Settled _ => false
  | _ => true
  end.

(** Calling [parse(rootPath)]: the body runs up to its first [await]. *)
Definition start_parse (rootPath : string) (w : World) : Run * World :=
  (AwaitingAccess rootPath,
   with_fs_calls (fs_calls w ++ [fs_promises_access rootPath]) w).

(** After the reads of [pending]: the next [readdir], or the final loop. *)
Definition next_media_read (pending : list (string * string))
    (mediaContents : list (string * list string)) (w : World) : Run * World :=
  match pending with
  | (k, dir) :: rest =>
      (AwaitingMediaContents k dir rest mediaContents,
       with_fs_calls (fs_calls w ++ [fs_promises_readdir dir]) w)
  | [] =>
      match traverse_media_contents mediaContents w with
      | (Return _, w') => (Settled (Return JUndefined), w')
      | (Throw e, w') => (Settled (Throw e), w')
      end
  end.

(** The awaited promise settles and the run goes on to its next [await]. *)
Definition resume (h : Host) (r : Run) (w : World) : Run * World :=
  match r with
  | AwaitingAccess rootPath =>
      if negb (fs_access h rootPath) then
        match db_log h (unable_to_access rootPath) (Some "error") false w with
        | (Return _, w') => (Settled (Return (JBool false)), w')
        | (Throw e, w') => (Settled (Throw e), w')
        end
      else
        (AwaitingRootContents rootPath,
         with_fs_calls (fs_calls w ++ [fs_promises_readdir rootPath]) w)
  | AwaitingRootContents rootPath =>
      match fs_readdir h rootPath with
      | None => (Settled (Throw (ErrorObject SystemError
                                   ("readdir '" +:+ rootPath +:+ "'"))), w)
      | Some rootContents =>
          match identify_media_paths h rootPath rootContents w with
          | (Return paths, w') => next_media_read (media_directories paths) [] w'
          | (Throw e, w') => (Settled (Throw e), w')
          end
      end
  | AwaitingMediaContents k dir rest mediaContents =>
      match fs_readdir h dir with
      | None => (Settled (Throw (ErrorObject SystemError
                                   ("readdir '" +:+ dir +:+ "'"))), w)
      | Some names => next_media_read rest (mediaContents ++ [(k, names)]) w
      end
  | Settled c => (Settled c, w)
  end.

(** [n] resumptions in a row. *)
Fixpoint resume_n (h : Host) (n : nat) (r : Run) (w : World) : Run * World :=
  match n with
  | O => (r, w)
  | S n' => resume_n h n' (resume h r w).1 (resume h r w).2
  end.

(** ** librarian.js, earliest revision *)

Module Librarian0.

(** [parse(rootPath)]: the [catch] clause logs and the function returns
    nothing on either path. *)
Definition parse (h : Host) (rootPath : string) : Js JsVal :=
  accessible ← fs_promises_access_call h rootPath;
  if negb accessible then
    db_log h ("[LIBRARIAN] " +:+ fs_access_error h rootPath) (Some "error") false;;
    mret JUndefined
  else mret JUndefined.

End Librarian0.

(** ** main.js, latest revision *)

Definition library_root_not_defined : string :=
  "The library root (LIBRARY_ROOT) is not defined in the configuration file, no libary will be built. Please fix ./config.env".

Definition cron_schedule (pattern : string) (rootPath : string) : Js unit :=
  modify (fun w => with_cron_jobs
            (cron_jobs w ++ [{| pattern := pattern; job_root := rootPath |}]) w).

(** [prepare()].  main.js uses the identifier [librarian] without declaring
    it; its binding is the parameter [librarian]: [None] is the file as it
    stands (evaluating [librarian.parse] throws a ReferenceError), [Some f]
    is the file with [librarian] bound to a module whose [parse] is [f].
    The callback given to [cron.schedule] reads [process.env.LIBRARY_ROOT]
    when it runs; no source file assigns to it, so the job records the value
    [prepare] tested. *)
Definition prepare (h : Host) (librarian : option (string -> Js JsVal)) : Js JsVal :=
  db_createDefaults h;;
  match LIBRARY_ROOT h with
  | None => console_write (console_error library_root_not_defined);; mret JUndefined
  | Some root =>
      if String.eqb root "" then
        console_write (console_error library_root_not_defined);; mret JUndefined
      else
        match librarian with
        | None => throw (ErrorObject ReferenceError "librarian is not defined")
        | Some librarian_parse =>
            librarian_parse root;;
            cron_schedule "0 */30 * * * *" root;;
            mret JUndefined
        end
  end.

(** *** The event loop after [prepare]

    The process state is the world and the calls of [parse] started by the
    cron callback [() => { librarian.parse(process.env.LIBRARY_ROOT) }], in
    the order they were started.  A tick of job [j] runs the callback; the
    other event lets the promise one run awaits settle.  The callback reads
    the identifier [librarian] as [prepare] does: with [None], the file as it
    stands, it throws the ReferenceError and starts nothing; with [Some f],
    [f] is what a call of [librarian.parse] does up to its first [await]. *)
Record Loop := {
  world : World;
  runs : list Run;
  (** what callbacks have thrown with nothing to catch it *)
  uncaught : list Thrown
}.

Inductive Event :=
| Tick (j : nat)
| Settle (i : nat).

Definition loop_step (h : Host)
    (librarian : option (string -> World -> Run * World))
    (ev : Event) (l : Loop) : Loop :=
  match ev with
  | Tick j =>
      match cron_jobs (world l) !! j with
      | Some job =>
          match librarian with
          | None =>
              {| world := world l; runs := runs l;
                 uncaught := uncaught l ++
                   [ErrorObject ReferenceError "librarian is not defined"] |}
          | Some librarian_parse =>
              let '(r, w) := librarian_parse (job_root job) (world l) in
              {| world := w; runs := runs l ++ [r]; uncaught := uncaught l |}
          end
      | None => l
      end
  | Settle i =>
      match runs l !! i with
      | Some r =>
          let '(r', w) := resume h r (world l) in
          {| world := w; runs := <[i := r']> (runs l); uncaught := uncaught l |}
      | None => l
      end
  end.

Definition loop_steps (h : Host)
    (librarian : option (string -> World -> Run * World))
    (evs : list Event) (l : Loop) : Loop :=
  fold_left (fun acc ev => loop_step h librarian ev acc) evs l.

Definition active_runs (l : Loop) : nat :=
  length (filter (fun r => in_progress r = true) (runs l)).

(** ** db.js (revision with the Logs table): authentication *)

(** [SELECT * FROM Users WHERE AccountName='body';] *)
Definition select_Users_text (body : string) : string :=
  "SELECT * FROM Users WHERE AccountName='" +:+ body +:+ "';".

Definition select_Users_by_AccountName (h : Host) (body : string) (d : Database)
    : SqlOutcome (list UserRow) :=
  match Users d with
  | None => SqlError "SQLITE_ERROR: no such table: Users"
  | Some rows =>
      if sqlite_plain body
      then SqlOk (filter (fun r => AccountName r = body) rows)
      else sqlite_select h (select_Users_text body) rows
  end.

(** [account.name] on a row object of the Users table: the columns of the
    table are its only own properties. *)
Definition account_property (account : UserRow) (name : string) : JsVal :=
  if String.eqb name "AccountID" then JNumber (AccountID account)
  else if String.eqb name "AccountName" then JString (AccountName account)
  else if String.eqb name "Password" then JString (Password account)
  else if String.eqb name "DisplayName" then JString (DisplayName account)
  else if String.eqb name "IsAdmin" then JNumber (if IsAdmin account then 1 else 0)
  else if String.eqb name "IsDisabled" then JNumber (if IsDisabled account then 1 else 0)
  else if String.eqb name "Created" then JString (Created account)
  else if String.eqb name "LastLogin" then JString (LastLogin account)
  else JUndefined.

(** A promise under construction: [None] while pending.  [resolve] and
    [reject] settle it once; later calls do nothing. *)
Definition resolve (v : JsVal) (state : option (Completion JsVal))
    : option (Completion JsVal) :=
  match state with
  | None => Some (Return v)
  | Some _ => state
  end.

Definition reject (v : JsVal) (state : option (Completion JsVal))
    : option (Completion JsVal) :=
  match state with
  | None => Some (Throw (ThrownValue v))
  | Some _ => state
  end.

(** [db.user.authenticate(username, password)].

    The function is not JavaScript as it stands: its promise executor, an
    arrow function that is not [async], contains [await], which the parser
    rejects with a SyntaxError, and with it the whole of db.js.  Its
    behaviour is therefore given under two parameters, one per repair:
    - [executor_is_async]: [false] is the file as it stands, [true] the file
      with the executor made an [async] arrow function;
    - [conn]: the identifier is declared neither in the function nor in the
      module; [false] is the file as it stands, where evaluating it throws
      a ReferenceError, [true] the file with [conn] bound to a connection to
      nelfe.db, as in the sibling functions.
    The result is [Throw] of the SyntaxError when the text does not parse,
    and otherwise the state of the returned promise once the executor has
    run: what an [async] executor throws is lost and leaves the promise
    pending ([None]). *)
Definition db_user_authenticate (h : Host) (executor_is_async conn : bool)
    (username password : string) (d : Database)
    : Completion (option (Completion JsVal)) :=
  if negb executor_is_async then
    Throw (ErrorObject SyntaxError
             "await is only valid in async functions and the top level bodies of modules")
  else if negb conn then Return None
  else
    Return
      match select_Users_by_AccountName h (mysql_real_escape_string username) d with
      | SqlError _ => None
      | SqlOk accounts =>
          let accountExists := bool_decide (length accounts = 1%nat) in
          let state := if negb accountExists then reject (JNumber 1) None else None in
          let account := head accounts in
          let compared :=
            match account with
            | None => Throw (ErrorObject TypeError
                               "Cannot read properties of undefined (reading 'Passowrd')")
            | Some account =>
                comparePassword h (JString password)
                  (account_property account "Passowrd")
            end in
          let state :=
            match compared with
            | Return _ => state
            | Throw _ => reject (JNumber 2) state
            end in
          resolve (JNumber 0) state
      end.

(** ** db.js, earlier revision: the settings *)

Module DbSettings.

(** [JSON.parse(text)] as a completion. *)
Definition JSON_parse_completion (h : Host) (text : string) : Completion JsVal :=
  match JSON_parse h text with
  | Some v => Return v
  | None => Throw (ErrorObject SyntaxError "JSON.parse")
  end.

(** The clauses of [switch (setting.Type)]: each assigns [parsedValue], and
    none ends in [break]. *)
Definition type_clauses (h : Host) (value : string)
    : list (option string * Completion JsVal) :=
  [ (Some "string", Return (JString value));
    (Some "number", Return (parseInt h value));
    (Some "date", Return (JDate value));
    (Some "object", JSON_parse_completion h value) ].

(** Running assignments to [parsedValue] one after the other. *)
Fixpoint run_assignments (bodies : list (Completion JsVal)) (parsedValue : JsVal)
    : Completion JsVal :=
  match bodies with
  | [] => Return parsedValue
  | Return v :: rest => run_assignments rest v
  | Throw e :: _ => Throw e
  end.

(** [let parsedValue; switch (setting.Type) { ... }] *)
Definition parsedValue (h : Host) (setting : SettingRow) : Completion JsVal :=
  run_assignments (switch_no_break (Type_ setting) (type_clauses h (Value setting)))
                  JUndefined.

(** What a clause would assign if it ended in [break]. *)
Definition matched_case_alone (h : Host) (setting : SettingRow) : Completion JsVal :=
  match clauses_from_case (Type_ setting) (type_clauses h (Value setting)) with
  | Some (body :: _) => body
  | _ => Return JUndefined
  end.

(** [settingsRows.forEach(setting => { ...; settings[setting.Key] = parsedValue })] *)
Fixpoint forEach_setting (h : Host) (settingsRows : list SettingRow)
    (settings : PlainObject) : Completion PlainObject :=
  match settingsRows with
  | [] => Return settings
  | setting :: rest =>
      match parsedValue h setting with
      | Return v => forEach_setting h rest (set_property (Key setting) v settings)
      | Throw e => Throw e
      end
  end.

(** [db.getSettings()] *)
Definition getSettings (h : Host) : Js PlainObject :=
  fun w =>
    match Settings (db w) with
    | None => (Throw (ErrorObject SystemError "SQLITE_ERROR: no such table: Settings"), w)
    | Some settingsRows =>
        match forEach_setting h settingsRows empty_object with
        | Throw e => (Throw e, w)
        | Return settings =>
            (Return settings,
             with_console (console w ++ [console_log_object settings]) w)
        end
    end.

End DbSettings.

(** ** Auxiliary notions for the properties *)

(** An action leaves a part of the world as it was. *)
Definition keeps {A B} (fld : World -> B) (m : Js A) : Prop :=
  forall w, fld (m w).2 = fld w.

(** The parts of the world the database controller never writes. *)
Definition outside_db (w : World) : list FsCall * list CronJob * list MediaItem :=
  (fs_calls w, cron_jobs w, catalog w).

(** The parts of the world the librarian never writes. *)
Definition outside_librarian (w : World) : list CronJob * list MediaItem :=
  (cron_jobs w, catalog w).

(** What [parse] returns is fixed by the file system alone. *)
Definition parse_outcome (h : Host) (rootPath : string) : Completion JsVal :=
  if fs_access h rootPath then
    match fs_readdir h rootPath with
    | None => Throw (ErrorObject SystemError ("readdir '" +:+ rootPath +:+ "'"))
    | Some [] => Return JUndefined
    | Some (_ :: _) =>
        Throw (ErrorObject TypeError "file.isDirectory is not a function")
    end
  else Return (JBool false).

(** What is left of a run once [pending] has been read. *)
Definition finish (h : Host) (pending : list (string * string))
    (mediaContents : list (string * list string)) (w : World) : Run * World :=
  match (read_media_contents h pending mediaContents ≫= fun mc =>
         traverse_media_contents mc ≫= fun _ => mret JUndefined) w with
  | (c, w') => (Settled c, w')
  end.

(** ** What the specification asks, as predicates on the embedding *)

(** Modelled from the spec: the keyword table of section 4.1, which calls
    the third media type [book], and matching of a keyword as a substring of
    a name up to the case of the letters. *)
Definition spec_keyword_table (t : MediaType) : list string :=
  match t with
  | movie => ["movie"; "video"]
  | music => ["music"; "audio"; "song"]
  | books => ["book"; "documents"; "epub"; "pdf"]
  | photo => ["photo"; "picture"]
  end.

Definition same_letter (a b : ascii) : bool :=
  let m := Ascii.nat_of_ascii a in
  let n := Ascii.nat_of_ascii b in
  (m =? n)%nat
  || ((65 <=? m)%nat && (m <=? 90)%nat && (n =? m + 32)%nat)
  || ((65 <=? n)%nat && (n <=? 90)%nat && (m =? n + 32)%nat).

Fixpoint ci_prefix (keyword name : string) : bool :=
  match keyword, name with
  | EmptyString, _ => true
  | String _ _, EmptyString => false
  | String k ks, String c r => same_letter k c && ci_prefix ks r
  end.

Fixpoint ci_substring (keyword name : string) : bool :=
  ci_prefix keyword name ||
  match name with
  | EmptyString => false
  | String _ r => ci_substring keyword r
  end.

Definition spec_classifies (t : MediaType) (name : string) : bool :=
  existsb (fun keyword => ci_substring keyword name) (spec_keyword_table t).

(** Classification as the specification states it, asked of the loop of
    [parse] over a listing: no name is an error, and a media type has a
    subtree root exactly when a name of the listing matches one of its
    keywords. *)
Definition classified_by_keyword (h : Host) (rootPath : string)
    (names : list string) (w : World) : Prop :=
  (forEach_rootContents h rootPath names noPaths w).1.1 = Return tt /\
  forall t,
    is_Some (pathOf t (forEach_rootContents h rootPath names noPaths w).1.2) <->
    exists name, name ∈ names /\ spec_classifies t name = true.

(** The first name of the listing that matches the keywords of [t] is
    adopted as the subtree root of [t]: after the loop the variable of [t]
    holds a path, and [parse] goes on to list that directory. *)
Definition first_match_adopted (h : Host) (rootPath : string) (t : MediaType)
    (w : World) : Prop :=
  forall names dir,
    fs_readdir h rootPath = Some names ->
    head (filter (fun name => spec_classifies t name = true) names) = Some dir ->
    exists subtree,
      pathOf t (forEach_rootContents h rootPath names noPaths w).1.2 = Some subtree /\
      fs_promises_readdir subtree ∈ fs_calls (parse h rootPath w).2.

(** Scanning twice leaves the catalog of the first scan, in which the file
    [f] of the tree is a MediaItem with that path and status [active]. *)
Definition idempotent_scan (h : Host) (rootPath : string) (w : World)
    (f : string) : Prop :=
  is_Some (fs_readFile h f) ->
  let first := (parse h rootPath w).2 in
  let second := (parse h rootPath first).2 in
  catalog second = catalog first /\
  exists item,
    item ∈ catalog second /\ currentPath item = f /\ status item = active.

(** The catalog holds exactly one MediaItem with this contentId. *)
Definition one_MediaItem_for (id : string) (c : list MediaItem) : Prop :=
  length (filter (fun item => contentId item = id) c) = 1.

(** After a scan of [rootPath] from [w], two distinct files with the same
    bytes are one MediaItem of the catalog, alone with its contentId. *)
Definition content_identity (h : Host) (rootPath : string) (w : World)
    (f1 f2 : string) : Prop :=
  f1 <> f2 -> is_Some (fs_readFile h f1) -> fs_readFile h f1 = fs_readFile h f2 ->
  exists item,
    item ∈ catalog (parse h rootPath w).2 /\
    (currentPath item = f1 \/ currentPath item = f2) /\
    one_MediaItem_for (contentId item) (catalog (parse h rootPath w).2).

(** A tick of job [j] that fires while a run is in progress is dropped: no
    run is added, something is logged, the catalog is as before. *)
Definition single_flight (h : Host)
    (librarian : option (string -> World -> Run * World)) (j : nat) (l : Loop) : Prop :=
  0 < active_runs l ->
  let l' := loop_step h librarian (Tick j) l in
  runs l' = runs l /\
  (db (world l') <> db (world l) \/ console (world l') <> console (world l)) /\
  catalog (world l') = catalog (world l).

(** ** Example hosts and worlds *)

Definition example_readdir (p : string) : option (list string) :=
  if String.eqb p "/lib" then Some ["Movies"; "misc"]
  else if String.eqb p "/lib/Movies" then Some ["a.mkv"; "b.mkv"]
  else if String.eqb p "/lib/misc" then Some []
  else if String.eqb p "/empty" then Some []
  else if String.eqb p "/shelf" then Some ["notes"]
  else None.

Definition example_readFile (p : string) : option string :=
  if String.eqb p "/lib/Movies/a.mkv" then Some "same bytes"
  else if String.eqb p "/lib/Movies/b.mkv" then Some "same bytes"
  else None.

(** A bcrypt that rejects arguments that are not strings, as the library does. *)
Definition example_bcrypt_compare (data hash : JsVal) : option bool :=
  match data, hash with
  | JString d, JString hsh => Some (String.eqb hsh ("$2b$10$" +:+ d))
  | _, _ => None
  end.

Definition example_JSON_parse (text : string) : option JsVal :=
  if String.eqb text "3080" then Some (JNumber 3080)
  else if String.eqb text "true" then Some (JBool true)
  else if String.eqb text "null" then Some JNull
  else None.

(** *** The example host's sqlite3

    A reader for the statements the sources build, run on the whole text of
    a statement: it looks for the VALUES keyword and reads the tuples that
    follow, of string literals (a doubled single quote standing for one)
    and unsigned integers, up to the first semicolon; [--] starts a comment.
    Anything else it answers with an error. *)
Inductive SqlToken :=
| TLeft
| TRight
| TComma
| TSemicolon
| TText (text : string)
| TWord (word : string).

Inductive LexState :=
| Between
| InText (text : string)
| QuoteInText (text : string)
| InWord (word : string)
| AfterHyphen
| InComment.

Definition is_space (c : ascii) : bool :=
  Ascii.eqb c " " || Ascii.eqb c "009" || Ascii.eqb c "010" || Ascii.eqb c "013".

Definition lex_between (c : ascii) : list SqlToken * LexState :=
  if Ascii.eqb c "'" then ([], InText "")
  else if Ascii.eqb c "(" then ([TLeft], Between)
  else if Ascii.eqb c ")" then ([TRight], Between)
  else if Ascii.eqb c "," then ([TComma], Between)
  else if Ascii.eqb c ";" then ([TSemicolon], Between)
  else if Ascii.eqb c "-" then ([], AfterHyphen)
  else if is_space c then ([], Between)
  else ([], InWord (String c EmptyString)).

Definition ends_word (c : ascii) : bool :=
  Ascii.eqb c "'" || Ascii.eqb c "(" || Ascii.eqb c ")" || Ascii.eqb c ","
  || Ascii.eqb c ";" || Ascii.eqb c "-" || is_space c.

Definition lex_step (st : LexState) (c : ascii) : list SqlToken * LexState :=
  match st with
  | Between => lex_between c
  | InText text =>
      if Ascii.eqb c "'" then ([], QuoteInText text)
      else ([], InText (text +:+ String c EmptyString))
  | QuoteInText text =>
      if Ascii.eqb c "'" then ([], InText (text +:+ "'"))
      else (TText text :: (lex_between c).1, (lex_between c).2)
  | InWord word =>
      if ends_word c then (TWord word :: (lex_between c).1, (lex_between c).2)
      else ([], InWord (word +:+ String c EmptyString))
  | AfterHyphen =>
      if Ascii.eqb c "-" then ([], InComment)
      else (TWord "-" :: (lex_between c).1, (lex_between c).2)
  | InComment => if Ascii.eqb c "010" then ([], Between) else ([], InComment)
  end.

(** The tokens of a text; a literal that is not closed is the word ['],
    which no statement can hold. *)
Fixpoint lex (s : string) (st : LexState) : list SqlToken :=
  match s with
  | EmptyString =>
      match st with
      | Between | InComment => []
      | InText _ => [TWord "'"]
      | QuoteInText text => [TText text]
      | InWord word => [TWord word]
      | AfterHyphen => [TWord "-"]
      end
  | String c r => (lex_step st c).1 ++ lex r (lex_step st c).2
  end.

Fixpoint is_digits (s : string) : bool :=
  match s with
  | EmptyString => true
  | String c r =>
      (48 <=? Ascii.nat_of_ascii c)%nat && (Ascii.nat_of_ascii c <=? 57)%nat
      && is_digits r
  end.

Fixpoint after_VALUES (tokens : list SqlToken) : option (list SqlToken) :=
  match tokens with
  | [] => None
  | TWord word :: rest =>
      if String.eqb (upper_ascii word) "VALUES" then Some rest else after_VALUES rest
  | _ :: rest => after_VALUES rest
  end.

Inductive ValuesState := ExpectTuple | ExpectValue | AfterValue | AfterTuple.

Fixpoint read_tuples (tokens : list SqlToken) (st : ValuesState)
    (current : list string) (tuples : list (list string))
    : SqlOutcome (list (list string)) :=
  match tokens, st with
  | [], AfterTuple => SqlOk tuples
  | [], _ => SqlError "SQLITE_ERROR: incomplete input"
  | TLeft :: rest, ExpectTuple => read_tuples rest ExpectValue [] tuples
  | TText v :: rest, ExpectValue => read_tuples rest AfterValue (current ++ [v]) tuples
  | TWord v :: rest, ExpectValue =>
      if is_digits v then read_tuples rest AfterValue (current ++ [v]) tuples
      else SqlError "SQLITE_ERROR: syntax error"
  | TComma :: rest, AfterValue => read_tuples rest ExpectValue current tuples
  | TRight :: rest, AfterValue => read_tuples rest AfterTuple [] (tuples ++ [current])
  | TComma :: rest, AfterTuple => read_tuples rest ExpectTuple [] tuples
  | TSemicolon :: _, AfterTuple => SqlOk tuples
  | _, _ => SqlError "SQLITE_ERROR: syntax error"
  end.

Definition example_sqlite_insert (statement : string)
    : SqlOutcome (list (list string)) :=
  match after_VALUES (lex statement Between) with
  | Some tokens => read_tuples tokens ExpectTuple [] []
  | None => SqlError "SQLITE_ERROR: syntax error"
  end.

(** The example host.  No string of the examples holds a character outside
    ASCII, and the host leaves such strings as they are. *)
Definition unchanged (s : string) : ascii * string :=
  match s with
  | EmptyString => (" "%char, EmptyString)
  | String c r => (c, r)
  end.

Definition example_host : Host := {|
  fs_access := fun p =>
    bool_decide (p ∈ ["/lib"; "/lib/Movies"; "/lib/misc"; "/lib/Movies/a.mkv";
                      "/lib/Movies/b.mkv"; "/empty"; "/shelf"; "/shelf/notes"]);
  fs_access_error := fun p =>
    "Error: ENOENT: no such file or directory, access '" +:+ p +:+ "'";
  fs_readdir := example_readdir;
  fs_readFile := example_readFile;
  LIBRARY_ROOT := Some "/lib";
  randomUUID := fun n => "00000000-0000-4000-8000-" +:+ pretty n;
  toISOString := fun _ => "2022-02-13T12:00:00.000Z";
  sqlite_insert := example_sqlite_insert;
  sqlite_select := fun _ _ => SqlError "SQLITE_ERROR: syntax error";
  unicode_toLowerCase := unchanged;
  unicode_toUpperCase := unchanged;
  bcrypt_hash := fun data => Some ("$2b$10$" +:+ data);
  bcrypt_compare := example_bcrypt_compare;
  JSON_parse := example_JSON_parse;
  parseInt := fun text => if String.eqb text "3080" then JNumber 3080 else JNaN
|}.

(** The same host with another library root. *)
Definition with_LIBRARY_ROOT (root : option string) (h : Host) : Host := {|
  fs_access := fs_access h; fs_access_error := fs_access_error h;
  fs_readdir := fs_readdir h; fs_readFile := fs_readFile h;
  LIBRARY_ROOT := root;
  randomUUID := randomUUID h; toISOString := toISOString h;
  sqlite_insert := sqlite_insert h; sqlite_select := sqlite_select h;
  unicode_toLowerCase := unicode_toLowerCase h;
  unicode_toUpperCase := unicode_toUpperCase h; bcrypt_hash := bcrypt_hash h;
  bcrypt_compare := bcrypt_compare h; JSON_parse := JSON_parse h;
  parseInt := parseInt h
|}.

Definition fresh_world : World := {|
  db := {| Users := None; Settings := None; Logs := None |};
  console := []; fs_calls := []; cron_jobs := []; catalog := []; readings := 0
|}.

(** The world once [db.createDefaults] has run on a fresh one. *)
Definition installed_world : World := (db_createDefaults example_host fresh_world).2.

(** A host whose configured library root does not exist. *)
Definition missing_root_host : Host := with_LIBRARY_ROOT (Some "/missing") example_host.

(** The process once [prepare] has returned on that host, with [librarian]
    bound to the librarian module: the first scan has failed and the cron job
    is registered. *)
Definition after_prepare : Loop := {|
  world := (prepare missing_root_host (Some (parse missing_root_host)) fresh_world).2;
  runs := [];
  uncaught := []
|}.

(** The same process after one tick: the run the tick started awaits
    [fs.promises.access]. *)
Definition busy_loop : Loop :=
  loop_step missing_root_host (Some start_parse) (Tick 0) after_prepare.

(** ** db.js (revision with the Logs table): reading and saving the settings *)

(** The character class of the regular expression of
    [mysql_real_escape_string]: NUL, backspace, tab, SUB, line feed, carriage
    return, double quote, single quote, backslash and percent. *)
Definition escape_class (c : ascii) : bool :=
  match Ascii.nat_of_ascii c with
  | 0%nat | 8%nat | 9%nat | 26%nat | 10%nat | 13%nat
  | 34%nat | 39%nat | 92%nat | 37%nat => true
  | _ => false
  end.

(** No character of [s] is in the class. *)
Fixpoint class_free (s : string) : bool :=
  match s with
  | EmptyString => true
  | String c r => negb (escape_class c) && class_free r
  end.

(** A [switch] in which every clause ends in [break]: the clause of the first
    matching label runs alone, the [default] clause when no label matches. *)
Definition switch_break {B} (v : string) (clauses : list (option string * B))
    : option B :=
  head (switch_no_break v clauses).

(** The clauses of [switch (setting.Type)] in [db.settings.get].  The clause
    of ['number'] starts by evaluating [Setting.value], and no [Setting] is
    declared in the function or the module. *)
Definition settings_get_clauses (h : Host) (value : string)
    : list (option string * Completion JsVal) :=
  [ (Some "string", Return (JString value));
    (Some "number", Throw (ErrorObject ReferenceError "Setting is not defined"));
    (Some "date", Return (JDate value));
    (Some "object", DbSettings.JSON_parse_completion h value);
    (None, Return (JString value)) ].

(** [let parsedValue; switch (setting.Type) { ... }] of [db.settings.get]. *)
Definition settings_parsedValue (h : Host) (setting : SettingRow) : Completion JsVal :=
  match switch_break (Type_ setting) (settings_get_clauses h (Value setting)) with
  | Some body => body
  | None => Return JUndefined
  end.

(** [settingsRows.forEach(setting => { ...; settings[setting.Key] = parsedValue })] *)
Fixpoint settings_forEach (h : Host) (settingsRows : list SettingRow)
    (settings : PlainObject) : Completion PlainObject :=
  match settingsRows with
  | [] => Return settings
  | setting :: rest =>
      match settings_parsedValue h setting with
      | Return v => settings_forEach h rest (set_property (Key setting) v settings)
      | Throw e => Throw e
      end
  end.

(** [db.settings.get()] *)
Definition db_settings_get (h : Host) : Js PlainObject :=
  fun w =>
    match Settings (db w) with
    | None => (Throw (ErrorObject SystemError "SQLITE_ERROR: no such table: Settings"), w)
    | Some settingsRows =>
        match settings_forEach h settingsRows empty_object with
        | Throw e => (Throw e, w)
        | Return settings =>
            (Return settings,
             with_console (console w ++ [console_log_object settings]) w)
        end
    end.

(** What [db.settings.save] needs of JavaScript besides the host:
    [String(v)] on a value that is not a string, [date.toUTCString()] on a
    Date built from a string, and [JSON.stringify(v)]. *)
Record Stringifier := {
  String_of : JsVal -> string;
  toUTCString : string -> string;
  JSON_stringify : JsVal -> string
}.

(** The [switch (typeof value)] of [db.settings.save]: the pair of [Value]
    and [Type].  [mysql_real_escape_string] returns a value that is not a
    string as it is. *)
Definition setting_Value_Type (s : Stringifier) (value : JsVal) : string * string :=
  match value with
  | JString str => (mysql_real_escape_string str, "string")
  | JNumber _ | JNaN => (String_of s value, "number")
  | JDate src => (toUTCString s src, "date")
  | JNull | JArray _ | JObject _ =>
      (mysql_real_escape_string (JSON_stringify s value), "object")
  | JUndefined | JBool _ => (String_of s value, "string")
  end.

(** [REPLACE INTO Settings (Key, Value, Type) values('key', 'value', 'type');]
    The key is interpolated as it is, the value as [setting_Value_Type] made
    it, and the type is one of four words.  The Settings table is created
    without a primary key or a unique column, so the statement finds no row
    to replace and adds the rows of its VALUES clause. *)
Definition replace_into_Settings_text (key value type : string) : string :=
  "REPLACE INTO Settings (Key, Value, Type) values('" +:+ key +:+ "', '"
  +:+ value +:+ "', '" +:+ type +:+ "');".

Definition SettingRow_of_values (values : list string) : option SettingRow :=
  match values with
  | [key; value; type] => Some {| Key := key; Value := value; Type_ := type |}
  | _ => None
  end.

Definition replace_into_Settings (h : Host) (key value type : string)
    (d : Database) : SqlOutcome Database :=
  if sqlite_plain key && sqlite_plain value then
    match Settings d with
    | None => SqlError "SQLITE_ERROR: no such table: Settings"
    | Some rows =>
        SqlOk (with_Settings
                 (Some (rows ++ [{| Key := key; Value := value; Type_ := type |}])) d)
    end
  else
    match sqlite_insert h (replace_into_Settings_text key value type) with
    | SqlError msg => SqlError msg
    | SqlOk tuples =>
        match Settings d, mapM SettingRow_of_values tuples with
        | None, _ => SqlError "SQLITE_ERROR: no such table: Settings"
        | Some rows, Some added => SqlOk (with_Settings (Some (rows ++ added)) d)
        | Some rows, None => SqlError "SQLITE_ERROR: the values do not fill 3 columns"
        end
    end.

(** [for (const [key, value] of Object.entries(settings)) { ... await ... }];
    the function has no [try]: a rejected statement rejects the call. *)
Fixpoint save_entries (h : Host) (s : Stringifier) (entries : list (string * JsVal))
    : Js unit :=
  match entries with
  | [] => mret tt
  | (key, value) :: rest =>
      err ← exec_sql (replace_into_Settings h key (setting_Value_Type s value).1
                        (setting_Value_Type s value).2);
      match err with
      | Some msg => throw (ErrorObject SystemError msg)
      | None => save_entries h s rest
      end
  end.

(** [db.settings.save(settings)], on the entries of [settings] in the order
    of [Object.entries]. *)
Definition db_settings_save (h : Host) (s : Stringifier)
    (settings : list (string * JsVal)) : Js JsVal :=
  match settings with
  | [] => mret (JBool false)
  | _ :: _ => save_entries h s settings;; mret JUndefined
  end.

(** ** Auxiliary notions for the further properties *)

(** The inverse of [mysql_real_escape_string] on its image; the sources have
    no such function, it serves to show that escaping loses nothing. *)
Definition unescape_char (c : ascii) : ascii :=
  match Ascii.nat_of_ascii c with
  | 48%nat => Ascii.ascii_of_nat 0
  | 98%nat => Ascii.ascii_of_nat 8
  | 116%nat => Ascii.ascii_of_nat 9
  | 122%nat => Ascii.ascii_of_nat 26
  | 110%nat => Ascii.ascii_of_nat 10
  | 114%nat => Ascii.ascii_of_nat 13
  | _ => c
  end.

Fixpoint unescape (s : string) : string :=
  match s with
  | EmptyString => EmptyString
  | String c EmptyString => String c EmptyString
  | String c (String d r as tail) =>
      if Ascii.eqb c "092" then String (unescape_char d) (unescape r)
      else String c (unescape tail)
  end.

(** The level [db.log] stores for the [level] argument it is given. *)
Definition stored_level (h : Host) (level : option string) : string :=
  let l := match level with
           | None => "INFO"
           | Some l => if String.eqb l "" then "INFO" else l
           end in
  if existsb (String.eqb (toUpperCase h l)) logLevels then toUpperCase h l else "INFO".

(** The Settings table as [db.createDefaults] creates it and every later
    statement of the sources leaves it: the LISTEN_PORT row first. *)
Definition installed_settings (w : World) : Prop :=
  exists rest,
    Settings (db w)
    = Some ({| Key := "LISTEN_PORT"; Value := "3080"; Type_ := "number" |} :: rest).

(** The console line for a level that is not one of [logLevels]. *)
Definition invalid_level_line : list ConsoleLine :=
  [console_error ("Error (db.log): Supplied log level is not valid, defaulting to "
                  +:+ dquote +:+ "INFO" +:+ dquote)].

(** Whether [db.log] accepts the [level] argument as it is. *)
Definition level_accepted (h : Host) (level : option string) : bool :=
  existsb (String.eqb (toUpperCase h
             match level with
             | None => "INFO"
             | Some l => if String.eqb l "" then "INFO" else l
             end)) logLevels.

(** A stringifier for the examples: integers in decimal. *)
Definition example_stringifier : Stringifier := {|
  String_of := fun v =>
    match v with
    | JNumber n => pretty n
    | JNaN => "NaN"
    | JBool true => "true"
    | JBool false => "false"
    | JUndefined => "undefined"
    | _ => ""
    end;
  toUTCString := fun src => src;
  JSON_stringify := fun v =>
    match v with
    | JNull => "null"
    | _ => "{}"
    end
|}.

(** A host whose bcrypt reports an error on every call. *)
Definition failing_bcrypt_host : Host := {|
  fs_access := fs_access example_host; fs_access_error := fs_access_error example_host;
  fs_readdir := fs_readdir example_host; fs_readFile := fs_readFile example_host;
  LIBRARY_ROOT := LIBRARY_ROOT example_host;
  randomUUID := randomUUID example_host; toISOString := toISOString example_host;
  sqlite_insert := sqlite_insert example_host;
  sqlite_select := sqlite_select example_host;
  unicode_toLowerCase := unicode_toLowerCase example_host;
  unicode_toUpperCase := unicode_toUpperCase example_host;
  bcrypt_hash := fun _ => None;
  bcrypt_compare := fun _ _ => None; JSON_parse := JSON_parse example_host;
  parseInt := parseInt example_host
|}.

(** * Properties *)

(** ** What an action leaves alone *)

Lemma keeps_ret {A B} (fld : World -> B) (a : A) : keeps fld (mret a).
Proof. by intros w. Qed.

Lemma keeps_bind {A B C} (fld : World -> C) (m : Js A) (f : A -> Js B) :
  keeps fld m -> (forall a, keeps fld (f a)) -> keeps fld (m ≫= f).
Proof.
  intros Hm Hf w. unfold mbind, Js_bind. specialize (Hm w).
  destruct (m w) as [[a|e] w']; simpl in *; [|done].
  by rewrite Hf.
Qed.

Lemma keeps_lift {A B} (fld : World -> B) (c : Completion A) : keeps fld (lift c).
Proof. by intros w. Qed.

Lemma keeps_throw {A B} (fld : World -> B) (e : Thrown) : keeps fld (@throw A e).
Proof. by intros w. Qed.

Lemma keeps_if {A B} (fld : World -> B) (b : bool) (m1 m2 : Js A) :
  keeps fld m1 -> keeps fld m2 -> keeps fld (if b then m1 else m2).
Proof. by destruct b. Qed.

Lemma keeps_outside_librarian {A} (m : Js A) :
  keeps outside_db m -> keeps outside_librarian m.
Proof.
  intros H w. specialize (H w). unfold outside_db, outside_librarian in *.
  congruence.
Qed.

Lemma keeps_catalog {A} (m : Js A) : keeps outside_librarian m -> keeps catalog m.
Proof. intros H w. specialize (H w). unfold outside_librarian in H. congruence. Qed.

Create HintDb keeps.

Ltac keeps_step :=
  first
    [ solve [auto with keeps]
    | apply keeps_ret
    | apply keeps_lift
    | apply keeps_throw
    | apply keeps_bind; [|intros ?]
    | apply keeps_if
    | progress case_match ].

Lemma console_write_keeps l : keeps outside_db (console_write l).
Proof. by intros w. Qed.

Lemma console_write_all_keeps ls : keeps outside_db (console_write_all ls).
Proof. by intros w. Qed.

Lemma take_reading_keeps h : keeps outside_db (take_reading h).
Proof. by intros w. Qed.

Lemma exec_sql_keeps stmt : keeps outside_db (exec_sql stmt).
Proof. intros w. unfold exec_sql. by destruct (stmt (db w)). Qed.

Lemma modify_db_keeps f : keeps outside_db (modify_db f).
Proof. by intros w. Qed.

Lemma table_exists_keeps {R} (table : Database -> option (list R)) :
  keeps outside_db (table_exists table).
Proof. by intros w. Qed.

#[export] Hint Resolve console_write_keeps console_write_all_keeps take_reading_keeps
  exec_sql_keeps modify_db_keeps : keeps.

Lemma db_log_keeps h message level suppressOutput :
  keeps outside_db (db_log h message level suppressOutput).
Proof.
  unfold db_log. repeat (keeps_step; auto with keeps).
Qed.

Lemma db_createDefaults_keeps h : keeps outside_db (db_createDefaults h).
Proof.
  unfold db_createDefaults.
  repeat (keeps_step; auto using table_exists_keeps with keeps).
Qed.

(** [db.log] never throws. *)
Lemma db_log_returns h message level suppressOutput w :
  exists v, (db_log h message level suppressOutput w).1 = Return v.
Proof.
  unfold db_log, mbind, Js_bind, take_reading, exec_sql, console_write,
    console_write_all, modify, mret, Js_ret.
  repeat (case_match; simplify_eq/=); eauto.
Qed.

(** ** The librarian writes neither the catalog nor the cron table *)

Lemma db_log_keeps_librarian h message level suppressOutput :
  keeps outside_librarian (db_log h message level suppressOutput).
Proof. apply keeps_outside_librarian, db_log_keeps. Qed.

Lemma fs_promises_access_call_keeps h p :
  keeps outside_librarian (fs_promises_access_call h p).
Proof. by intros w. Qed.

Lemma fs_promises_readdir_call_keeps h p :
  keeps outside_librarian (fs_promises_readdir_call h p).
Proof. intros w. unfold fs_promises_readdir_call. by destruct (fs_readdir h p). Qed.

#[export] Hint Resolve db_log_keeps_librarian fs_promises_access_call_keeps
  fs_promises_readdir_call_keeps : keeps.

Lemma forEach_file_keeps h rootPath file p :
  keeps outside_librarian (forEach_file h rootPath file p).
Proof. unfold forEach_file. repeat (keeps_step; auto with keeps). Qed.

Lemma forEach_rootContents_keeps h rootPath files p w :
  outside_librarian (forEach_rootContents h rootPath files p w).2 = outside_librarian w.
Proof.
  revert p w. induction files as [|file rest IH]; intros p w; [done|].
  cbn [forEach_rootContents].
  pose proof (forEach_file_keeps h rootPath file p w) as Hfile.
  destruct (forEach_file h rootPath file p w) as [[p'|e] w']; cbn [snd] in *.
  - by rewrite IH.
  - done.
Qed.

Lemma notify_keeps h label v : keeps outside_librarian (notify h label v).
Proof. unfold notify. repeat (keeps_step; auto with keeps). Qed.

Lemma identify_media_paths_keeps h rootPath rootContents :
  keeps outside_librarian (identify_media_paths h rootPath rootContents).
Proof.
  unfold identify_media_paths.
  apply keeps_bind; [auto with keeps | intros _].
  apply keeps_bind;
    [| intros paths; repeat (apply keeps_bind; [apply notify_keeps | intros _]);
       apply keeps_ret].
  intros w. pose proof (forEach_rootContents_keeps h rootPath rootContents noPaths w) as H.
  by destruct (forEach_rootContents h rootPath rootContents noPaths w) as [[[?|?] ?] ?].
Qed.

Lemma read_media_contents_keeps h pending mediaContents :
  keeps outside_librarian (read_media_contents h pending mediaContents).
Proof.
  revert mediaContents. induction pending as [|[k dir] rest IH]; intros mc; simpl.
  - apply keeps_ret.
  - apply keeps_bind; [auto with keeps | intros names; apply IH].
Qed.

Lemma forEach_keeps {A} (callback : A -> Js unit) l :
  (forall x, keeps outside_librarian (callback x)) ->
  keeps outside_librarian (forEach callback l).
Proof.
  intros H. induction l as [|x rest IH]; simpl.
  - apply keeps_ret.
  - apply keeps_bind; [apply H | by intros _].
Qed.

Lemma traverse_media_contents_keeps mediaContents :
  keeps outside_librarian (traverse_media_contents mediaContents).
Proof.
  apply forEach_keeps. intros [mediaType mediaDirectory].
  apply forEach_keeps. intros item. unfold forEach_item.
  repeat (keeps_step; auto with keeps).
Qed.

Lemma parse_keeps h rootPath : keeps outside_librarian (parse h rootPath).
Proof.
  unfold parse.
  repeat (keeps_step;
          auto using identify_media_paths_keeps, read_media_contents_keeps,
            traverse_media_contents_keeps with keeps).
Qed.

Lemma Librarian0_parse_keeps h rootPath :
  keeps outside_librarian (Librarian0.parse h rootPath).
Proof. unfold Librarian0.parse. repeat (keeps_step; auto with keeps). Qed.

(** The catalog after a scan is the catalog before it. *)
Lemma parse_catalog h rootPath w : catalog (parse h rootPath w).2 = catalog w.
Proof. apply (keeps_catalog _ (parse_keeps h rootPath)). Qed.

(** ** The world [db.log] leaves *)

(** A call with level ['error'] and a message that is not empty. *)
Lemma db_log_error h message w :
  message <> "" ->
  db_log h message (Some "error") false w =
  match insert_into_Logs h (randomUUID h (readings w))
          (formatDateSQL (toISOString h (readings w)) true) "ERROR"
          (mysql_real_escape_string message) (db w) with
  | SqlOk d =>
      let out := "[" +:+ formatDateSQL (toISOString h (readings w)) true +:+ "]"
                 +:+ message in
      (Return (JBool true),
       with_console (console w ++ [console_error out; console_log out])
         (with_db d (with_readings (S (readings w)) w)))
  | SqlError msg =>
      (Return JUndefined,
       with_console (console w ++ [console_error ("Error: Error: " +:+ msg)])
         (with_readings (S (readings w)) w))
  end.
Proof.
  intros Hmsg. unfold db_log. apply String.eqb_neq in Hmsg. rewrite Hmsg.
  change (toUpperCase h "error") with "ERROR". cbn [String.eqb existsb logLevels].
  unfold mbind, Js_bind, mret, Js_ret, take_reading, exec_sql. simpl.
  by destruct (insert_into_Logs _ _ _ _ _ _).
Qed.

Lemma unable_to_access_nonempty rootPath : unable_to_access rootPath <> "".
Proof. done. Qed.

(** ** The outcome of a scan *)

(** The loop over the root listing throws at its first entry, before the
    entry is logged and with the four variables still [undefined]. *)
Lemma forEach_rootContents_throws h rootPath file rest p w :
  forEach_rootContents h rootPath (file :: rest) p w =
  (Throw (ErrorObject TypeError "file.isDirectory is not a function"), p, w).
Proof. reflexivity. Qed.

(** Case analysis on the call of [db.log] in the goal, which returns. *)
Ltac db_log_cases v w' :=
  match goal with
  | |- context [db_log ?a ?b ?c ?d ?e] =>
      let Hv := fresh "Hv" in
      let v0 := fresh "v" in
      let e0 := fresh "e" in
      destruct (db_log_returns a b c d e) as [v0 Hv];
      destruct (db_log a b c d e) as [[v|e0] w']
  end.

(** The completion of [parse] is [parse_outcome], whatever the world. *)
Lemma parse_returns h rootPath w : (parse h rootPath w).1 = parse_outcome h rootPath.
Proof.
  unfold parse, parse_outcome, mbind, Js_bind, fs_promises_access_call,
    fs_promises_readdir_call.
  destruct (fs_access h rootPath); cbn [negb].
  - destruct (fs_readdir h rootPath) as [[|file rest]|]; [| |done].
    + unfold identify_media_paths, mbind, Js_bind.
      db_log_cases v' w'; [|done].
      reflexivity.
    + unfold identify_media_paths, mbind, Js_bind.
      db_log_cases v' w'; [|done].
      reflexivity.
  - db_log_cases v' w'; [|done].
    reflexivity.
Qed.

(** The earliest revision of [parse] returns [undefined] whether or not the
    root is accessible, and leaves the catalog alone. *)
Lemma earliest_parse_returns_undefined (h : Host) (rootPath : string) (w : World) :
  (Librarian0.parse h rootPath w).1 = Return JUndefined /\
  catalog (Librarian0.parse h rootPath w).2 = catalog w.
Proof.
  split; [|apply (keeps_catalog _ (Librarian0_parse_keeps h rootPath))].
  unfold Librarian0.parse, mbind, Js_bind, fs_promises_access_call.
  destruct (fs_access h rootPath); cbn [negb]; [done|].
  by db_log_cases v' w'.
Qed.


(** C2 on the code: after the first scan of a library that holds two files
    with the same bytes, the catalog holds no MediaItem for either, where the
    claim asks for exactly one. *)
Lemma content_identity_not_met :
  ~ content_identity example_host "/lib" installed_world
      "/lib/Movies/a.mkv" "/lib/Movies/b.mkv".
Proof.
  intros H. destruct H as (item & Hin & _); [done | by eexists | done |].
  rewrite parse_catalog in Hin. by apply not_elem_of_nil in Hin.
Qed.

(** A scan computes no contentId and writes no MediaItem: the catalog after
    [parse] is the catalog before it, so contentIds that were unique stay
    unique and a contentId has exactly one MediaItem after the scan exactly
    when it had one before. *)
Lemma scan_writes_no_MediaItem (h : Host) (rootPath : string) (w : World) :
  let after := catalog (parse h rootPath w).2 in
  after = catalog w /\
  (NoDup (contentId <$> catalog w) -> NoDup (contentId <$> after)) /\
  (forall id, one_MediaItem_for id after <-> one_MediaItem_for id (catalog w)).
Proof.
  intros after. subst after. rewrite parse_catalog. by repeat split.
Qed.


(** C9: when the root is accessible and its listing is not empty, [parse]
    throws the TypeError of [file.isDirectory()] on the first name: the loop
    ends there with the four media paths still [undefined], in whatever world
    it runs; the only file-system calls of the scan are the [access] and the
    [readdir] of the root, so no media directory is read; the catalog is as
    before. *)
Theorem parse_throws_on_first_entry (h : Host) (rootPath : string) (w : World)
    (file : string) (rest : list string) :
  fs_access h rootPath = true ->
  fs_readdir h rootPath = Some (file :: rest) ->
  (parse h rootPath w).1 =
    Throw (ErrorObject TypeError "file.isDirectory is not a function") /\
  (forall w0, forEach_rootContents h rootPath (file :: rest) noPaths w0 =
     (Throw (ErrorObject TypeError "file.isDirectory is not a function"),
      noPaths, w0)) /\
  fs_calls (parse h rootPath w).2 =
    fs_calls w ++ [fs_promises_access rootPath; fs_promises_readdir rootPath] /\
  catalog (parse h rootPath w).2 = catalog w.
Proof.
  intros Hacc Hdir. split; [|split; [|split]].
  - rewrite parse_returns. unfold parse_outcome. by rewrite Hacc, Hdir.
  - intros w0. apply forEach_rootContents_throws.
  - unfold parse, mbind, Js_bind, fs_promises_access_call, fs_promises_readdir_call.
    rewrite Hacc. cbn [negb fs_calls with_fs_calls]. rewrite Hdir.
    unfold identify_media_paths, mbind, Js_bind.
    match goal with |- context [db_log ?a ?b ?c ?d ?e] =>
      pose proof (db_log_keeps a b c d e) as Hk;
      destruct (db_log_returns a b c d e) as [v Hv];
      destruct (db_log a b c d e) as [[v'|e'] w'] end; [|done].
    cbn [forEach_rootContents].
    change (forEach_file h rootPath file noPaths w')
      with (@Throw MediaPaths
              (ErrorObject TypeError "file.isDirectory is not a function"), w').
    unfold outside_db in Hk. cbn [snd fs_calls with_fs_calls] in Hk.
    injection Hk as Hfs _ _. cbn [snd]. rewrite Hfs. by rewrite <- app_assoc.
  - apply parse_catalog.
Qed.

Lemma parse_throws_on_first_entry_witness :
  fs_access example_host "/lib" = true /\
  fs_readdir example_host "/lib" = Some ["Movies"; "misc"] /\
  (parse example_host "/lib" installed_world).1 =
    Throw (ErrorObject TypeError "file.isDirectory is not a function").
Proof.
  split; [reflexivity|]. split; [reflexivity|].
  exact (proj1 (parse_throws_on_first_entry example_host "/lib" installed_world
                  "Movies" ["misc"] eq_refl eq_refl)).
Defined.

(** ** Directory classification *)

(** C5 on the code, at a library whose listing is [Movies], [misc].  The
    name [Movies] is the first that matches a keyword of the movie type, but
    the loop ends at the TypeError of [file.isDirectory()] on that very name,
    before the assignment block: the variable of the movie type is still
    [undefined], [parse] is rejected, and the directory is never listed, so
    no subtree root is adopted. *)
Theorem first_match_not_adopted :
  let w := installed_world in
  fs_readdir example_host "/lib" = Some ["Movies"; "misc"] /\
  head (filter (fun name => spec_classifies movie name = true) ["Movies"; "misc"])
    = Some "Movies" /\
  forEach_rootContents example_host "/lib" ["Movies"; "misc"] noPaths w
    = (Throw (ErrorObject TypeError "file.isDirectory is not a function"),
       noPaths, w) /\
  (parse example_host "/lib" w).1
    = Throw (ErrorObject TypeError "file.isDirectory is not a function") /\
  fs_calls (parse example_host "/lib" w).2
    = [fs_promises_access "/lib"; fs_promises_readdir "/lib"] /\
  ~ first_match_adopted example_host "/lib" movie w.
Proof.
  cbv zeta. split; [reflexivity|]. split; [reflexivity|].
  split; [apply forEach_rootContents_throws|].
  split; [by rewrite parse_returns|]. split; [by vm_compute|].
  intros H. destruct (H ["Movies"; "misc"] "Movies" eq_refl eq_refl)
    as (subtree & Hpath & _).
  rewrite forEach_rootContents_throws in Hpath. discriminate.
Qed.

(** C6 on the code.  By the keyword table [Movies] is a movie directory (it
    holds [movie] up to the case of the letters) and [notes] matches no
    keyword of any type; the loop of [parse] gives the first no type and
    makes the second an error, since [file.isDirectory()] throws on every
    name before the keywords are looked at. *)
Theorem keyword_table_never_consulted :
  let w := installed_world in
  spec_classifies movie "Movies" = true /\
  (forall t, spec_classifies t "notes" = false) /\
  forEach_rootContents example_host "/lib" ["Movies"; "misc"] noPaths w
    = (Throw (ErrorObject TypeError "file.isDirectory is not a function"),
       noPaths, w) /\
  ~ classified_by_keyword example_host "/lib" ["Movies"; "misc"] w /\
  fs_readdir example_host "/shelf" = Some ["notes"] /\
  forEach_rootContents example_host "/shelf" ["notes"] noPaths w
    = (Throw (ErrorObject TypeError "file.isDirectory is not a function"),
       noPaths, w) /\
  (parse example_host "/shelf" w).1
    = Throw (ErrorObject TypeError "file.isDirectory is not a function") /\
  ~ classified_by_keyword example_host "/shelf" ["notes"] w.
Proof.
  cbv zeta. split; [reflexivity|]. split; [by intros []|].
  split; [apply forEach_rootContents_throws|].
  split; [intros [H _]; by rewrite forEach_rootContents_throws in H|].
  split; [reflexivity|]. split; [apply forEach_rootContents_throws|].
  split; [by rewrite parse_returns|].
  intros [H _]. by rewrite forEach_rootContents_throws in H.
Qed.

(** ** One [await] at a time *)

Lemma resume_n_Settled h n c w : resume_n h n (Settled c) w = (Settled c, w).
Proof. induction n as [|n IH]; [done | by simpl]. Qed.

Lemma resume_n_S h n r w :
  resume_n h (S n) r w = resume_n h n (resume h r w).1 (resume h r w).2.
Proof. reflexivity. Qed.

Lemma resume_n_next_media_read h n pending mediaContents w :
  length pending <= n ->
  resume_n h n (next_media_read pending mediaContents w).1
               (next_media_read pending mediaContents w).2 =
  finish h pending mediaContents w.
Proof.
  revert n mediaContents w.
  induction pending as [|[k dir] rest IH]; intros n mc w Hn.
  - unfold next_media_read, finish, mbind, Js_bind. cbn [read_media_contents].
    unfold mret at 1, Js_ret at 1.
    destruct (traverse_media_contents mc w) as [[[]|e] w'];
      apply resume_n_Settled.
  - destruct n as [|n]; [simpl in Hn; lia|].
    cbn [next_media_read fst snd]. rewrite resume_n_S. cbn [resume].
    unfold finish. cbn [read_media_contents]. unfold mbind at 1 2, Js_bind at 1 2.
    unfold fs_promises_readdir_call.
    destruct (fs_readdir h dir) as [names|].
    + rewrite IH by (simpl in Hn; lia). reflexivity.
    + apply resume_n_Settled.
Qed.

Lemma media_directories_length paths : length (media_directories paths) <= 4.
Proof.
  unfold media_directories. cbn [omap list_omap].
  repeat case_match; simpl; lia.
Qed.

(** The run of [parse] that a call starts settles within six resumptions,
    with the completion and in the world that [parse] gives. *)
Lemma resume_n_start_parse h rootPath w :
  resume_n h 6 (start_parse rootPath w).1 (start_parse rootPath w).2 =
  (Settled (parse h rootPath w).1, (parse h rootPath w).2).
Proof.
  unfold start_parse. cbn [fst snd]. rewrite resume_n_S. cbn [resume].
  unfold parse, mbind, Js_bind, fs_promises_access_call.
  destruct (fs_access h rootPath); cbn [negb fst snd].
  - rewrite resume_n_S. cbn [resume]. unfold fs_promises_readdir_call.
    destruct (fs_readdir h rootPath) as [rootContents|];
      [|cbn [fst snd]; by rewrite resume_n_Settled].
    destruct (identify_media_paths h rootPath rootContents _) as [[paths|e] w3];
      [|cbn [fst snd]; by rewrite resume_n_Settled].
    rewrite resume_n_next_media_read
      by (pose proof (media_directories_length paths); lia).
    unfold finish, mbind, Js_bind.
    destruct (read_media_contents h (media_directories paths) [] w3)
      as [[mc|e] w4]; [|done].
    by destruct (traverse_media_contents mc w4) as [[[]|e] w5].
  - destruct (db_log h _ _ _ _) as [[v|e] w']; cbn [fst snd]; by rewrite resume_n_Settled.
Qed.

(** ** The event loop *)

Lemma next_media_read_catalog pending mediaContents w :
  catalog (next_media_read pending mediaContents w).2 = catalog w.
Proof.
  unfold next_media_read. destruct pending as [|[k dir] rest]; [|done].
  pose proof (keeps_catalog _ (traverse_media_contents_keeps mediaContents) w) as H.
  by destruct (traverse_media_contents mediaContents w) as [[?|?] ?].
Qed.

Lemma resume_catalog h r w : catalog (resume h r w).2 = catalog w.
Proof.
  destruct r as [rootPath|rootPath|k dir rest mc|c]; cbn [resume]; [| | |done].
  - destruct (fs_access h rootPath); cbn [negb]; [done|].
    pose proof (keeps_catalog _ (db_log_keeps_librarian h (unable_to_access rootPath)
                                   (Some "error") false) w) as H.
    by destruct (db_log h _ _ _ w) as [[?|?] ?].
  - destruct (fs_readdir h rootPath) as [rootContents|]; [|done].
    pose proof (keeps_catalog _ (identify_media_paths_keeps h rootPath rootContents) w)
      as H.
    destruct (identify_media_paths h rootPath rootContents w) as [[paths|e] w'];
      [|done].
    by rewrite next_media_read_catalog.
  - destruct (fs_readdir h dir); [|done]. apply next_media_read_catalog.
Qed.

(** The catalog is out of reach of every event, whatever [librarian] is
    bound to, provided the start of a call leaves it alone, as the start of
    [parse] does. *)
Lemma loop_step_catalog h librarian ev l :
  (forall f root w, librarian = Some f -> catalog (f root w).2 = catalog w) ->
  catalog (world (loop_step h librarian ev l)) = catalog (world l).
Proof.
  intros Hstart. destruct ev as [j|i]; cbn [loop_step].
  - destruct (cron_jobs (world l) !! j) as [job|]; [|done].
    destruct librarian as [f|]; [|done].
    specialize (Hstart f (job_root job) (world l) eq_refl).
    by destruct (f (job_root job) (world l)).
  - destruct (runs l !! i) as [r|]; [|done].
    pose proof (resume_catalog h r (world l)) as H.
    by destruct (resume h r (world l)).
Qed.

(** No sequence of ticks and settlements writes the catalog. *)
Lemma loop_steps_catalog h librarian evs l :
  (forall f root w, librarian = Some f -> catalog (f root w).2 = catalog w) ->
  catalog (world (loop_steps h librarian evs l)) = catalog (world l).
Proof.
  intros Hstart. revert l. induction evs as [|ev evs IH]; intros l; [done|].
  unfold loop_steps in *. cbn [fold_left]. by rewrite IH, loop_step_catalog.
Qed.

(** main.js as it stands registers no cron job: with [librarian] undeclared
    [prepare] stops before [cron.schedule], if it gets that far. *)
Lemma prepare_as_committed_registers_no_job (h : Host) (w : World) :
  cron_jobs (prepare h None w).2 = cron_jobs w.
Proof.
  unfold prepare, mbind at 1, Js_bind at 1.
  pose proof (db_createDefaults_keeps h w) as Hk. unfold outside_db in Hk.
  destruct (db_createDefaults h w) as [[v|e] w1]; cbn [snd] in Hk;
    injection Hk as _ Hcron _; [|done].
  destruct (LIBRARY_ROOT h) as [root|]; [|done].
  by destruct (String.eqb root "").
Qed.

Lemma start_parse_catalog (f : string -> World -> Run * World) root w :
  Some start_parse = Some f -> catalog (f root w).2 = catalog w.
Proof. by intros [= <-]. Qed.




(** ** Start-up *)

(** [db.createDefaults] fails only when the admin account has to be created
    and bcrypt reports an error. *)
Lemma db_createDefaults_returns h w :
  is_Some (Users (db w)) \/ is_Some (bcrypt_hash h "admin") ->
  (db_createDefaults h w).1 = Return (JBool true).
Proof.
  intros H. unfold db_createDefaults, mbind, Js_bind, table_exists, hashPassword, lift.
  cbn [fst snd]. destruct (Users (db w)) as [users|] eqn:Husers.
  - rewrite bool_decide_true by eauto. cbn.
    by repeat (case_match; simplify_eq/=).
  - rewrite bool_decide_false by (by intros [? ?]). cbn.
    destruct H as [[? ?]|[hash Hhash]]; [done|]. rewrite Hhash. cbn.
    by repeat (case_match; simplify_eq/=).
Qed.

(** C7: when [process.env.LIBRARY_ROOT] is unset or empty, [prepare], once
    the default tables are in place, prints the message to [console.error]
    and returns [undefined] normally; whatever [librarian] is bound to, it is
    not called: no file-system call is made, no cron job is registered, and
    the database and the catalog are as [db.createDefaults] left them. *)
Theorem prepare_without_library_root (h : Host)
    (librarian : option (string -> Js JsVal)) (w w1 : World) (v : JsVal) :
  LIBRARY_ROOT h = None \/ LIBRARY_ROOT h = Some "" ->
  db_createDefaults h w = (Return v, w1) ->
  prepare h librarian w =
    (Return JUndefined,
     with_console (console w1 ++ [console_error library_root_not_defined]) w1) /\
  fs_calls (prepare h librarian w).2 = fs_calls w /\
  cron_jobs (prepare h librarian w).2 = cron_jobs w /\
  catalog (prepare h librarian w).2 = catalog w.
Proof.
  intros Hroot Hdefaults.
  assert (prepare h librarian w =
    (Return JUndefined,
     with_console (console w1 ++ [console_error library_root_not_defined]) w1)) as ->.
  { unfold prepare, mbind at 1, Js_bind at 1. rewrite Hdefaults.
    by destruct Hroot as [-> | ->]. }
  split; [done|].
  pose proof (db_createDefaults_keeps h w) as Hk. rewrite Hdefaults in Hk.
  unfold outside_db in Hk. cbn [snd] in Hk. injection Hk as Hfs Hcron Hcat.
  by repeat split.
Qed.

Lemma prepare_without_library_root_witness :
  LIBRARY_ROOT (with_LIBRARY_ROOT None example_host) = None /\
  prepare (with_LIBRARY_ROOT None example_host) None fresh_world =
    (Return JUndefined,
     with_console (console installed_world ++ [console_error library_root_not_defined])
       installed_world) /\
  fs_calls (prepare (with_LIBRARY_ROOT None example_host) None fresh_world).2 = [].
Proof.
  assert (db_createDefaults (with_LIBRARY_ROOT None example_host) fresh_world
          = (Return (JBool true), installed_world)) as Hdefaults
    by (vm_compute; reflexivity).
  destruct (prepare_without_library_root (with_LIBRARY_ROOT None example_host)
              None fresh_world installed_world (JBool true)
              (or_introl eq_refl) Hdefaults) as (Hret & Hfs & _).
  split; [reflexivity|]. split; [exact Hret | exact Hfs].
Defined.

(** With a root configured, main.js as it stands stops at the undeclared
    identifier. *)
Lemma prepare_librarian_not_defined (h : Host) (w w1 : World) (v : JsVal) root :
  LIBRARY_ROOT h = Some root -> root <> "" ->
  db_createDefaults h w = (Return v, w1) ->
  prepare h None w = (Throw (ErrorObject ReferenceError "librarian is not defined"), w1).
Proof.
  intros Hroot Hne Hdefaults. unfold prepare, mbind at 1, Js_bind at 1.
  rewrite Hdefaults, Hroot. apply String.eqb_neq in Hne. by rewrite Hne.
Qed.

(** ** The settings switch *)

(** What the [switch] leaves in [parsedValue] for the four labels. *)
Lemma parsedValue_is_JSON_parse (h : Host) (setting : SettingRow) :
  Type_ setting ∈ ["string"; "number"; "date"; "object"] ->
  DbSettings.parsedValue h setting
    = DbSettings.JSON_parse_completion h (Value setting) /\
  last (switch_no_break (Type_ setting) (DbSettings.type_clauses h (Value setting)))
    = Some (DbSettings.JSON_parse_completion h (Value setting)).
Proof.
  intros Hty. destruct setting as [key value ty]. cbn [Type_ Value] in *.
  unfold DbSettings.parsedValue. cbn [Type_ Value].
  repeat (apply elem_of_cons in Hty as [->|Hty];
          [ split; [cbn; by destruct (DbSettings.JSON_parse_completion h value)
                   | reflexivity] |]).
  by apply elem_of_nil in Hty.
Qed.

(** C8: for a row whose Type is one of the four labels, control enters the
    [switch] at that label and runs every clause from there to the last one;
    what [parsedValue] holds in the end is what the last clause,
    [JSON.parse(setting.Value)], assigns (or the SyntaxError it throws), not
    what the clause of the label assigned. *)
Theorem settings_switch_falls_through (h : Host) (setting : SettingRow) :
  Type_ setting ∈ ["string"; "number"; "date"; "object"] ->
  (exists i,
     (DbSettings.type_clauses h (Value setting)) !! i
       = Some (Some (Type_ setting), DbSettings.matched_case_alone h setting) /\
     switch_no_break (Type_ setting) (DbSettings.type_clauses h (Value setting))
       = drop i (snd <$> DbSettings.type_clauses h (Value setting))) /\
  last (switch_no_break (Type_ setting) (DbSettings.type_clauses h (Value setting)))
    = Some (DbSettings.JSON_parse_completion h (Value setting)) /\
  DbSettings.parsedValue h setting = DbSettings.JSON_parse_completion h (Value setting).
Proof.
  intros Hty. destruct setting as [key value ty]. cbn [Type_ Value] in *.
  unfold DbSettings.parsedValue, DbSettings.matched_case_alone.
  cbn [Type_ Value].
  repeat (apply elem_of_cons in Hty as [->|Hty];
          [ split; [|split];
            [ first [ by exists 0 | by exists 1 | by exists 2 | by exists 3 ]
            | reflexivity
            | cbn; by destruct (DbSettings.JSON_parse_completion h value) ] |]).
  by apply elem_of_nil in Hty.
Qed.

Lemma settings_switch_falls_through_witness :
  Type_ {| Key := "LISTEN_PORT"; Value := "3080"; Type_ := "string" |}
    ∈ ["string"; "number"; "date"; "object"] /\
  DbSettings.parsedValue example_host
    {| Key := "LISTEN_PORT"; Value := "3080"; Type_ := "string" |}
    = Return (JNumber 3080) /\
  DbSettings.matched_case_alone example_host
    {| Key := "LISTEN_PORT"; Value := "3080"; Type_ := "string" |}
    = Return (JString "3080").
Proof.
  assert (Type_ {| Key := "LISTEN_PORT"; Value := "3080"; Type_ := "string" |}
            ∈ ["string"; "number"; "date"; "object"]) as Hty by (apply elem_of_cons; by left).
  split; [exact Hty|].
  destruct (settings_switch_falls_through example_host
              {| Key := "LISTEN_PORT"; Value := "3080"; Type_ := "string" |} Hty)
    as (_ & _ & Hparsed).
  split; [exact Hparsed | reflexivity].
Defined.

(** Read through [db.getSettings]: the property a row sets on the settings
    object holds what [JSON.parse] gave. *)
Lemma forEach_setting_row (h : Host) (setting : SettingRow) (v : JsVal)
    (settings : PlainObject) :
  Type_ setting ∈ ["string"; "number"; "date"; "object"] ->
  JSON_parse h (Value setting) = Some v ->
  DbSettings.forEach_setting h [setting] settings
    = Return (set_property (Key setting) v settings).
Proof.
  intros Hty Hjson. cbn [DbSettings.forEach_setting].
  destruct (parsedValue_is_JSON_parse h setting Hty) as [-> _].
  unfold DbSettings.JSON_parse_completion. by rewrite Hjson.
Qed.

(** The settings object of a fresh installation. *)
Example getSettings_installed :
  (DbSettings.getSettings example_host installed_world).1
    = Return {| own_properties := {[ "LISTEN_PORT" := JNumber 3080 ]};
                prototype := None |}.
Proof. reflexivity. Qed.

(** A row with any other Type enters no clause and leaves [parsedValue]
    [undefined]. *)
Lemma settings_switch_no_label (h : Host) (setting : SettingRow) :
  Type_ setting ∉ ["string"; "number"; "date"; "object"] ->
  DbSettings.parsedValue h setting = Return JUndefined.
Proof.
  intros Hty. destruct setting as [key value ty]. cbn [Type_] in Hty.
  unfold DbSettings.parsedValue, switch_no_break. cbn [Type_ Value].
  cbn [DbSettings.type_clauses clauses_from_case].
  destruct (String.eqb_spec "string" ty) as [<-|_]; [set_solver|].
  destruct (String.eqb_spec "number" ty) as [<-|_]; [set_solver|].
  destruct (String.eqb_spec "date" ty) as [<-|_]; [set_solver|].
  destruct (String.eqb_spec "object" ty) as [<-|_]; [set_solver|].
  reflexivity.
Qed.

(** ** Authentication *)

(** The property [authenticate] reads from the account row is misspelt; no
    column has that name. *)
Lemma Passowrd_undefined account : account_property account "Passowrd" = JUndefined.
Proof. reflexivity. Qed.

Lemma comparePassword_ignores_res h password hashed res :
  bcrypt_compare h password hashed = Some res ->
  comparePassword h password hashed = Return (JBool true).
Proof. intros H. unfold comparePassword. by rewrite H. Qed.

(** With both repairs made and a bcrypt that reports an error when the hash
    is not a string, as the library does, the misspelt property makes every
    comparison fail: the one account is rejected with code 2 whatever the
    password. *)
Lemma authenticate_rejects_with_strict_bcrypt (h : Host) (d : Database)
    (username password : string) (account : UserRow) :
  select_Users_by_AccountName h (mysql_real_escape_string username) d
    = SqlOk [account] ->
  bcrypt_compare h (JString password) JUndefined = None ->
  db_user_authenticate h true true username password d
    = Return (Some (Throw (ThrownValue (JNumber 2)))).
Proof.
  intros Hsel Hcmp. unfold db_user_authenticate. rewrite Hsel.
  cbn [length head bool_decide negb]. unfold comparePassword.
  rewrite Passowrd_undefined, Hcmp. reflexivity.
Qed.


(** * Further properties of the embedded code *)

(** ** mysql_real_escape_string *)

Lemma length_append s1 s2 :
  String.length (s1 +:+ s2) = String.length s1 + String.length s2.
Proof. induction s1 as [|c r IH]; simpl; [done | by rewrite IH]. Qed.

Lemma escape_char_cases c :
  (escape_class c = false /\ escape_char c = String c EmptyString) \/
  (escape_class c = true /\
   exists d, escape_char c = String "092" (String d EmptyString) /\
             unescape_char d = c).
Proof.
  destruct c as [[] [] [] [] [] [] [] []];
    first [ left; split; reflexivity
          | right; split; [reflexivity | eexists; repeat split; reflexivity] ].
Qed.

Lemma unescape_escape s : unescape (mysql_real_escape_string s) = s.
Proof.
  induction s as [|c r IH]; [done|].
  cbn [mysql_real_escape_string].
  destruct (escape_char_cases c) as [[Hclass ->] | [Hclass (d & -> & Hd)]].
  - change (String c "" +:+ mysql_real_escape_string r)
      with (String c (mysql_real_escape_string r)).
    assert (Ascii.eqb c "092" = false) as Hc.
    { destruct (Ascii.eqb_spec c "092") as [->|]; [discriminate | done]. }
    destruct (mysql_real_escape_string r) as [|d tail] eqn:Hr.
    + simpl in *. by rewrite <- IH.
    + change (unescape (String c (String d tail)))
        with (if Ascii.eqb c "092" then String (unescape_char d) (unescape tail)
              else String c (unescape (String d tail))).
      rewrite Hc. by rewrite IH.
  - change (String "092" (String d "") +:+ mysql_real_escape_string r)
      with (String "092" (String d (mysql_real_escape_string r))).
    change (unescape (String "092" (String d (mysql_real_escape_string r))))
      with (String (unescape_char d) (unescape (mysql_real_escape_string r))).
    by rewrite Hd, IH.
Qed.

(** X1: escaping loses nothing: two strings with the same escaped form are
    the same string. *)
Theorem mysql_real_escape_string_injective (s1 s2 : string) :
  mysql_real_escape_string s1 = mysql_real_escape_string s2 -> s1 = s2.
Proof.
  intros H. rewrite <- (unescape_escape s1), <- (unescape_escape s2).
  by rewrite H.
Qed.

Lemma mysql_real_escape_string_injective_witness :
  mysql_real_escape_string "it's" = mysql_real_escape_string "it's" /\
  "it's" = "it's".
Proof.
  split; [reflexivity|].
  exact (mysql_real_escape_string_injective "it's" "it's" eq_refl).
Defined.

(** X2: the escaped form is at least as long as the string and at most twice
    as long, and it is the string itself exactly when no character of the
    string is in the class of the regular expression. *)
Theorem mysql_real_escape_string_length (s : string) :
  String.length s <= String.length (mysql_real_escape_string s) <= 2 * String.length s /\
  (mysql_real_escape_string s = s <-> class_free s = true).
Proof.
  assert (forall s, String.length s <= String.length (mysql_real_escape_string s)
                    <= 2 * String.length s) as Hlen.
  { clear s. induction s as [|c r IH]; [simpl; lia|].
    cbn [mysql_real_escape_string]. rewrite length_append.
    destruct (escape_char_cases c) as [[_ ->] | [_ (d & -> & _)]]; simpl; lia. }
  split; [apply Hlen|].
  induction s as [|c r IH]; [done|].
  cbn [mysql_real_escape_string class_free].
  destruct (escape_char_cases c) as [[Hclass ->] | [Hclass (d & -> & Hd)]];
    rewrite Hclass; cbn [negb andb].
  - change (String c "" +:+ mysql_real_escape_string r)
      with (String c (mysql_real_escape_string r)).
    rewrite <- IH. split; [by intros [= ->] | by intros ->].
  - change (String "092" (String d "") +:+ mysql_real_escape_string r)
      with (String "092" (String d (mysql_real_escape_string r))).
    split; [|done]. intros [= <- Hr].
    pose proof (Hlen r) as Hr'. rewrite <- Hr in Hr' at 1. simpl in Hr'. lia.
Qed.

Lemma includes_char_append s1 s2 c :
  includes_char (s1 +:+ s2) c = includes_char s1 c || includes_char s2 c.
Proof.
  induction s1 as [|d r IH]; [done|]. simpl. by rewrite IH, orb_assoc.
Qed.

(** X3: the escaped form holds none of the six control characters of the
    class (NUL, backspace, tab, SUB, line feed, carriage return). *)
Theorem mysql_real_escape_string_no_control (s : string) (c : ascii) :
  c ∈ [Ascii.ascii_of_nat 0; Ascii.ascii_of_nat 8; Ascii.ascii_of_nat 9;
       Ascii.ascii_of_nat 26; Ascii.ascii_of_nat 10; Ascii.ascii_of_nat 13] ->
  includes_char (mysql_real_escape_string s) c = false.
Proof.
  intros Hc. induction s as [|d r IH]; [done|].
  cbn [mysql_real_escape_string]. rewrite includes_char_append, IH, orb_false_r.
  clear IH.
  repeat (apply elem_of_cons in Hc as [->|Hc];
          [destruct d as [[] [] [] [] [] [] [] []]; reflexivity|]).
  by apply elem_of_nil in Hc.
Qed.

Lemma mysql_real_escape_string_no_control_witness :
  includes_char (mysql_real_escape_string
                   (String (Ascii.ascii_of_nat 10) "line")) (Ascii.ascii_of_nat 10)
    = false.
Proof.
  apply mysql_real_escape_string_no_control. apply list_elem_of_lookup.
  by exists 4.
Defined.

(** ** formatDateSQL *)

Lemma substring_0_append a b :
  String.substring 0 (String.length a) (a +:+ b) = a.
Proof.
  induction a as [|c r IH]; simpl.
  - by destruct b.
  - by rewrite IH.
Qed.

Lemma substring_skip_append a b m :
  String.substring (String.length a) m (a +:+ b) = String.substring 0 m b.
Proof. induction a as [|c r IH]; simpl; [done | by rewrite IH]. Qed.

(** X4: on a string of the shape [toISOString] gives, ten characters of date,
    a [T], eight characters of time and a rest, [formatDateSQL] returns the
    date alone as DATE and the date, a space and the time as DATETIME. *)
Theorem formatDateSQL_of_ISO (date time rest : string) :
  String.length date = 10 ->
  String.length time = 8 ->
  formatDateSQL (date +:+ "T" +:+ time +:+ rest) false = date /\
  formatDateSQL (date +:+ "T" +:+ time +:+ rest) true = date +:+ " " +:+ time.
Proof.
  intros Hdate Htime. unfold formatDateSQL. rewrite <- Hdate.
  rewrite substring_0_append, substring_skip_append. split; [done|].
  f_equal.
  change ("T" +:+ time +:+ rest) with (String "T" (time +:+ rest)).
  change (String.substring 0 9 (String "T" (time +:+ rest)))
    with (String "T" (String.substring 0 8 (time +:+ rest))).
  rewrite <- Htime, substring_0_append. reflexivity.
Qed.

Lemma formatDateSQL_of_ISO_witness :
  formatDateSQL "2022-02-13T12:34:56.789Z" false = "2022-02-13" /\
  formatDateSQL "2022-02-13T12:34:56.789Z" true = "2022-02-13 12:34:56".
Proof.
  exact (formatDateSQL_of_ISO "2022-02-13" "12:34:56" ".789Z" eq_refl eq_refl).
Defined.

(** ** db.log *)

Lemma toUpperCase_empty h s : toUpperCase h s = "" -> s = "".
Proof. unfold toUpperCase. destruct (is_ascii s); [by destruct s | done]. Qed.

Lemma stored_level_valid h level : stored_level h level ∈ logLevels.
Proof.
  unfold stored_level.
  destruct (existsb _ logLevels) eqn:Hvalid; [|set_solver].
  apply existsb_exists in Hvalid as (l & Hin & Heq).
  apply String.eqb_eq in Heq. rewrite Heq. by apply list_elem_of_In.
Qed.

Lemma db_log_spec h message level suppressOutput w :
  message <> "" ->
  let date := formatDateSQL (toISOString h (readings w)) true in
  let out := "[" +:+ date +:+ "]" +:+ message in
  let warned := if level_accepted h level then [] else invalid_level_line in
  db_log h message level suppressOutput w =
  match insert_into_Logs h (randomUUID h (readings w)) date (stored_level h level)
          (mysql_real_escape_string message) (db w) with
  | SqlOk d =>
      (Return (JBool true),
       with_console
         (console w ++ warned ++
          (if suppressOutput then []
           else switch_no_break (stored_level h level) (log_console_clauses out)))
         (with_db d (with_readings (S (readings w)) w)))
  | SqlError msg =>
      (Return JUndefined,
       with_console (console w ++ warned ++ [console_error ("Error: Error: " +:+ msg)])
         (with_readings (S (readings w)) w))
  end.
Proof.
  intros Hmsg date out warned. subst date out warned.
  unfold db_log, stored_level, level_accepted.
  apply String.eqb_neq in Hmsg. rewrite Hmsg.
  set (l := match level with
            | Some l => if String.eqb l "" then "INFO" else l
            | None => "INFO"
            end).
  destruct (existsb (String.eqb (toUpperCase h l)) logLevels) eqn:Hvalid; cbn [negb].
  - unfold mbind, Js_bind, mret, Js_ret, take_reading, exec_sql. cbn [fst snd].
    destruct (insert_into_Logs _ _ _ _ _ _); destruct suppressOutput;
      cbn; rewrite ?app_nil_r; reflexivity.
  - unfold mbind, Js_bind, mret, Js_ret, take_reading, exec_sql, console_write,
      console_write_all, modify. cbn [fst snd].
    change (toUpperCase h "INFO") with "INFO".
    cbn [db readings with_console console].
    destruct (insert_into_Logs _ _ _ _ _ _); destruct suppressOutput;
      cbn; rewrite <- ?app_assoc, ?app_nil_r; reflexivity.
Qed.

(** What escaping leaves of the two characters that matter to sqlite: the
    NUL is gone, the single quote is still there. *)
Lemma escape_char_sqlite c :
  includes_char (escape_char c) "000" = false /\
  includes_char (escape_char c) "'" = Ascii.eqb "'" c.
Proof. by destruct c as [[] [] [] [] [] [] [] []]. Qed.

Lemma sqlite_plain_escape s :
  sqlite_plain (mysql_real_escape_string s) = negb (includes_char s "'").
Proof.
  unfold sqlite_plain.
  induction s as [|c r IH]; [done|].
  cbn [mysql_real_escape_string includes_char].
  rewrite !includes_char_append.
  destruct (escape_char_sqlite c) as [-> ->].
  rewrite !negb_orb in *. cbn [negb andb orb].
  destruct (Ascii.eqb "'" c); [done|]. exact IH.
Qed.

(** The rows [db.log] adds to the Logs table, the only table it writes. *)
Lemma db_log_tables h message level suppressOutput w :
  let w' := (db_log h message level suppressOutput w).2 in
  exists added,
    Logs (db w') = (fun rows => rows ++ added) <$> Logs (db w) /\
    Users (db w') = Users (db w) /\
    Settings (db w') = Settings (db w) /\
    (sqlite_plain (mysql_real_escape_string message) = true ->
     added = [] \/
     added = [{| UUID := randomUUID h (readings w);
                 DateTime := formatDateSQL (toISOString h (readings w)) true;
                 Level := stored_level h level;
                 Message := mysql_real_escape_string message |}]).
Proof.
  intros w'. subst w'.
  assert (forall o : option (list LogRow), (fun rows => rows ++ []) <$> o = o) as Hnil.
  { intros [rows|]; cbn; by rewrite ?app_nil_r. }
  destruct (String.eqb_spec message "") as [->|Hmsg].
  - exists []. rewrite Hnil. cbn. repeat split. by left.
  - rewrite db_log_spec by done. unfold insert_into_Logs.
    destruct (sqlite_plain (mysql_real_escape_string message)) eqn:Hplain.
    + destruct (Logs (db w)) as [rows|] eqn:Hlogs.
      * eexists [_]. cbn. rewrite ?Hlogs. cbn. repeat split. by right.
      * exists []. cbn. rewrite ?Hlogs. repeat split. by left.
    + destruct (sqlite_insert h _) as [tuples|msg].
      * destruct (Logs (db w)) as [rows|] eqn:Hlogs.
        -- destruct (mapM LogRow_of_values tuples) as [added|].
           ++ exists added. cbn. rewrite ?Hlogs. by repeat split.
           ++ exists []. rewrite Hnil. cbn. by repeat split.
        -- exists []. cbn. rewrite ?Hlogs. by repeat split.
      * exists []. rewrite Hnil. cbn. by repeat split.
Qed.

(** X5: whatever its arguments and whatever sqlite makes of the statement,
    [db.log] only adds rows to the Logs table: the rows that were there stay,
    and the Users and Settings tables are as before.  When the message holds
    no single quote it adds at most one row, whose Level is one of DEBUG,
    INFO, WARNING and ERROR and whose Message is the escaped message. *)
Theorem db_log_only_appends (h : Host) (message : string)
    (level : option string) (suppressOutput : bool) (w : World) :
  let w' := (db_log h message level suppressOutput w).2 in
  exists added,
    Logs (db w') = (fun rows => rows ++ added) <$> Logs (db w) /\
    Users (db w') = Users (db w) /\
    Settings (db w') = Settings (db w) /\
    (includes_char message "'" = false ->
     length added <= 1 /\
     Forall (fun row => Level row ∈ logLevels /\
                        Message row = mysql_real_escape_string message) added).
Proof.
  intros w'. subst w'.
  destruct (db_log_tables h message level suppressOutput w)
    as (added & Hlogs & Husers & Hsettings & Hplain).
  exists added. split; [done|]. split; [done|]. split; [done|].
  intros Hquote. rewrite sqlite_plain_escape, Hquote in Hplain.
  destruct (Hplain eq_refl) as [->| ->]; cbn; (split; [lia|]).
  - constructor.
  - constructor; [|constructor]. split; [apply stored_level_valid | done].
Qed.

Lemma db_log_only_appends_witness :
  includes_char "disk almost full" "'" = false /\
  Logs (db (db_log example_host "disk almost full" (Some "warning") true
              installed_world).2)
  = Some [{| UUID := "00000000-0000-4000-8000-1";
             DateTime := "2022-02-13 12:00:00";
             Level := "WARNING";
             Message := "disk almost full" |}] /\
  exists added,
    Logs (db (db_log example_host "disk almost full" (Some "warning") true
                installed_world).2) = Some ([] ++ added) /\
    length added <= 1.
Proof.
  split; [reflexivity|]. split; [reflexivity|].
  destruct (db_log_only_appends example_host "disk almost full" (Some "warning") true
              installed_world) as (added & Hlogs & _ & _ & Hplain).
  exists added. split; [exact Hlogs|]. exact (proj1 (Hplain eq_refl)).
Defined.

(** A message with a single quote can change the statement: on the example
    host this one stores two rows, the second with the Level [3]. *)
Example db_log_reshaped_statement :
  Level <$> default [] (Logs (db (db_log example_host "a'),(1,2,3,4);--" None true
                                    installed_world).2))
  = ["INFO"; "3"].
Proof. reflexivity. Qed.

Lemma stored_level_upper h l1 l2 :
  toUpperCase h l1 = toUpperCase h l2 ->
  stored_level h (Some l1) = stored_level h (Some l2) /\
  level_accepted h (Some l1) = level_accepted h (Some l2).
Proof.
  intros H. unfold stored_level, level_accepted.
  destruct (String.eqb_spec l1 "") as [->|H1].
  - symmetry in H. apply toUpperCase_empty in H as ->. done.
  - destruct (String.eqb_spec l2 "") as [->|H2].
    + apply toUpperCase_empty in H. done.
    + by rewrite H.
Qed.

(** X6: the level argument of [db.log] is read up to the case of its
    letters: two levels with the same upper-case form give the same return
    value and the same world. *)
Theorem db_log_level_case_insensitive (h : Host) (message l1 l2 : string)
    (suppressOutput : bool) (w : World) :
  toUpperCase h l1 = toUpperCase h l2 ->
  db_log h message (Some l1) suppressOutput w =
  db_log h message (Some l2) suppressOutput w.
Proof.
  intros H. destruct (String.eqb_spec message "") as [->|Hmsg]; [done|].
  rewrite !db_log_spec by done.
  by destruct (stored_level_upper h l1 l2 H) as [-> ->].
Qed.

Lemma db_log_level_case_insensitive_witness :
  toUpperCase example_host "Warning" = toUpperCase example_host "WARNING" /\
  db_log example_host "disk almost full" (Some "Warning") false installed_world =
  db_log example_host "disk almost full" (Some "WARNING") false installed_world.
Proof.
  split; [reflexivity|].
  exact (db_log_level_case_insensitive example_host "disk almost full"
           "Warning" "WARNING" false installed_world eq_refl).
Defined.

Lemma switch_ends_in_error_log L out :
  L ∈ logLevels ->
  exists before,
    switch_no_break L (log_console_clauses out) =
    before ++ [console_error out; console_log out].
Proof.
  intros Hin. unfold logLevels in Hin.
  apply elem_of_cons in Hin as [->|Hin];
    [by exists [console_debug out; console_log out; console_warn out]|].
  apply elem_of_cons in Hin as [->|Hin];
    [by exists [console_log out; console_warn out]|].
  apply elem_of_cons in Hin as [->|Hin]; [by exists [console_warn out]|].
  apply elem_of_cons in Hin as [->|Hin]; [by exists []|].
  by apply elem_of_nil in Hin.
Qed.

(** X7: the console [switch] of [db.log] has no [break]: a message that is
    stored and not suppressed is printed with [console.error] and then
    [console.log] whatever its level, after the lines of the levels below
    its own; a message at the default level INFO is printed four times. *)
Theorem db_log_prints_every_level_as_error (h : Host) (message : string)
    (level : option string) (w : World) :
  message <> "" ->
  (db_log h message level false w).1 = Return (JBool true) ->
  let out := "[" +:+ formatDateSQL (toISOString h (readings w)) true +:+ "]"
             +:+ message in
  (exists before,
     console (db_log h message level false w).2 =
     console w ++ before ++ [console_error out; console_log out]) /\
  (level = None ->
   console (db_log h message level false w).2 =
   console w ++ [console_log out; console_warn out; console_error out;
                 console_log out]).
Proof.
  intros Hmsg Hret out. subst out. rewrite db_log_spec in Hret |- * by done.
  destruct (insert_into_Logs _ _ _ _ _ _) as [d|msg]; [|done]. cbn [snd console with_console].
  split.
  - destruct (switch_ends_in_error_log (stored_level h level)
                ("[" +:+ formatDateSQL (toISOString h (readings w)) true +:+ "]"
                 +:+ message) (stored_level_valid h level)) as [before ->].
    exists ((if level_accepted h level then [] else invalid_level_line) ++ before).
    by rewrite <- !app_assoc.
  - intros ->. reflexivity.
Qed.

Lemma db_log_prints_every_level_as_error_witness :
  "started" <> "" /\
  (db_log example_host "started" None false installed_world).1 = Return (JBool true) /\
  console (db_log example_host "started" None false installed_world).2 =
  console installed_world ++
    [console_log "[2022-02-13 12:00:00]started";
     console_warn "[2022-02-13 12:00:00]started";
     console_error "[2022-02-13 12:00:00]started";
     console_log "[2022-02-13 12:00:00]started"].
Proof.
  assert ("started" <> "") as Hmsg by discriminate.
  split; [exact Hmsg|]. split; [reflexivity|].
  exact (proj2 (db_log_prints_every_level_as_error example_host "started" None
                  installed_world Hmsg eq_refl) eq_refl).
Defined.

(** ** db.createDefaults *)

(** The default content of the tables [db.createDefaults] creates. *)
Lemma db_createDefaults_spec h w :
  let users := Users (db w) in
  let settings := Settings (db w) in
  let logs := Logs (db w) in
  match users, bcrypt_hash h "admin" with
  | None, None =>
      (db_createDefaults h w).1 = Throw (ErrorObject SystemError "bcrypt") /\
      db (db_createDefaults h w).2 =
        {| Users := Some []; Settings := settings; Logs := logs |}
  | _, _ =>
      (db_createDefaults h w).1 = Return (JBool true) /\
      db (db_createDefaults h w).2 =
        {| Users := Some (default
                      [admin_account (default "" (bcrypt_hash h "admin"))
                         (formatDateSQL (toISOString h (readings w)) false)] users);
           Settings := Some (default
                      [{| Key := "LISTEN_PORT"; Value := "3080"; Type_ := "number" |}]
                      settings);
           Logs := Some (default [] logs) |}
  end.
Proof.
  destruct w as [[users settings logs] c f j cat n]. cbn [db Users Settings Logs].
  unfold db_createDefaults, mbind, Js_bind, table_exists, hashPassword, lift,
    console_write, console_write_all, modify_db, modify, take_reading, mret, Js_ret.
  destruct users as [users|], (bcrypt_hash h "admin") as [hash|],
    settings as [settings|], logs as [logs|]; cbn; split; reflexivity.
Qed.

(** After a run that returns, the three tables exist. *)
Lemma db_createDefaults_tables_exist (h : Host) (w : World) (v : JsVal) :
  (db_createDefaults h w).1 = Return v ->
  let d := db (db_createDefaults h w).2 in
  is_Some (Users d) /\ is_Some (Settings d) /\ is_Some (Logs d).
Proof.
  intros Hret d. subst d. pose proof (db_createDefaults_spec h w) as Hspec.
  cbv zeta in Hspec.
  destruct (Users (db w)), (bcrypt_hash h "admin"); destruct Hspec as [Hv Hdb];
    rewrite ?Hdb; cbn [Users Settings Logs]; try by eauto.
  by rewrite Hv in Hret.
Qed.

(** X8: a run of [db.createDefaults] that returns leaves the three tables in
    place; a table that was there keeps its rows, a table that was missing
    gets its default content: the admin account, the LISTEN_PORT setting,
    no log. *)
Theorem db_createDefaults_fills_missing_tables (h : Host) (w : World) (v : JsVal) :
  (db_createDefaults h w).1 = Return v ->
  let d := db (db_createDefaults h w).2 in
  v = JBool true /\
  (exists hash,
     (Users (db w) = None -> bcrypt_hash h "admin" = Some hash) /\
     Users d = Some (default
                  [admin_account hash (formatDateSQL (toISOString h (readings w)) false)]
                  (Users (db w)))) /\
  Settings d = Some (default
                 [{| Key := "LISTEN_PORT"; Value := "3080"; Type_ := "number" |}]
                 (Settings (db w))) /\
  Logs d = Some (default [] (Logs (db w))).
Proof.
  intros Hret d. subst d. pose proof (db_createDefaults_spec h w) as Hspec.
  cbv zeta in Hspec.
  destruct (Users (db w)) as [users|] eqn:Husers.
  - destruct Hspec as [Hv ->]. rewrite Hv in Hret. injection Hret as <-.
    split; [done|]. split; [|done]. by exists "".
  - destruct (bcrypt_hash h "admin") as [hash|] eqn:Hhash.
    + destruct Hspec as [Hv ->]. rewrite Hv in Hret. injection Hret as <-.
      split; [done|]. split; [|done]. by exists hash.
    + destruct Hspec as [Hv _]. by rewrite Hv in Hret.
Qed.

Lemma db_createDefaults_fills_missing_tables_witness :
  (db_createDefaults example_host fresh_world).1 = Return (JBool true) /\
  Settings (db (db_createDefaults example_host fresh_world).2) =
    Some [{| Key := "LISTEN_PORT"; Value := "3080"; Type_ := "number" |}].
Proof.
  split; [reflexivity|].
  exact (proj1 (proj2 (proj2 (db_createDefaults_fills_missing_tables example_host
                                fresh_world (JBool true) eq_refl)))).
Defined.

(** X9: [db.createDefaults] is idempotent: run again in the world a run that
    returned has left, it returns [true] and changes nothing, not even the
    console. *)
Theorem db_createDefaults_idempotent (h : Host) (w w1 : World) (v : JsVal) :
  db_createDefaults h w = (Return v, w1) ->
  db_createDefaults h w1 = (Return (JBool true), w1).
Proof.
  intros Hrun.
  destruct (db_createDefaults_tables_exist h w v) as ([users Hu] & [settings Hs] & [logs Hl]);
    [by rewrite Hrun|].
  rewrite Hrun in Hu, Hs, Hl. cbn [snd] in Hu, Hs, Hl.
  destruct w1 as [[users1 settings1 logs1] c f j cat n].
  cbn [db Users Settings Logs] in Hu, Hs, Hl. rewrite Hu, Hs, Hl.
  reflexivity.
Qed.

Lemma db_createDefaults_idempotent_witness :
  db_createDefaults example_host fresh_world = (Return (JBool true), installed_world) /\
  db_createDefaults example_host installed_world = (Return (JBool true), installed_world).
Proof.
  assert (db_createDefaults example_host fresh_world
          = (Return (JBool true), installed_world)) as Hrun by (vm_compute; reflexivity).
  split; [exact Hrun|].
  exact (db_createDefaults_idempotent example_host fresh_world installed_world
           (JBool true) Hrun).
Defined.

(** X10: when the Users table is missing and bcrypt fails on the admin
    password, [db.createDefaults] throws after it has created the table: the
    table is left empty, and no later run, on any host, creates the admin
    account, since a later run finds the table in place. *)
Theorem db_createDefaults_failed_run_leaves_no_admin (h h' : Host) (w : World) :
  Users (db w) = None ->
  bcrypt_hash h "admin" = None ->
  let w1 := (db_createDefaults h w).2 in
  (db_createDefaults h w).1 = Throw (ErrorObject SystemError "bcrypt") /\
  Users (db w1) = Some [] /\
  (db_createDefaults h' w1).1 = Return (JBool true) /\
  Users (db (db_createDefaults h' w1).2) = Some [].
Proof.
  intros Husers Hhash w1. subst w1.
  pose proof (db_createDefaults_spec h w) as Hspec. cbv zeta in Hspec.
  rewrite Husers, Hhash in Hspec. destruct Hspec as [Hthrow Hdb].
  split; [done|]. split; [by rewrite Hdb|].
  pose proof (db_createDefaults_spec h' (db_createDefaults h w).2) as Hspec.
  cbv zeta in Hspec. rewrite Hdb in Hspec. cbn [Users Settings Logs] in Hspec.
  destruct Hspec as [Hret Hdb']. split; [done|]. by rewrite Hdb'.
Qed.

Lemma db_createDefaults_failed_run_leaves_no_admin_witness :
  Users (db fresh_world) = None /\
  bcrypt_hash failing_bcrypt_host "admin" = None /\
  Users (db (db_createDefaults example_host
               (db_createDefaults failing_bcrypt_host fresh_world).2).2) = Some [].
Proof.
  split; [reflexivity|]. split; [reflexivity|].
  exact (proj2 (proj2 (proj2 (db_createDefaults_failed_run_leaves_no_admin
                                failing_bcrypt_host example_host fresh_world
                                eq_refl eq_refl)))).
Defined.

(** ** db.settings.get and db.settings.save *)

Lemma settings_parsedValue_number h setting :
  Type_ setting = "number" ->
  settings_parsedValue h setting =
  Throw (ErrorObject ReferenceError "Setting is not defined").
Proof. intros H. unfold settings_parsedValue. by rewrite H. Qed.

Lemma settings_forEach_number h rows settings setting :
  setting ∈ rows -> Type_ setting = "number" ->
  exists e, settings_forEach h rows settings = Throw e.
Proof.
  intros Hin Hty. revert settings.
  induction rows as [|r rest IH]; intros settings; [by apply elem_of_nil in Hin|].
  cbn [settings_forEach]. apply elem_of_cons in Hin as [<-|Hin].
  - rewrite settings_parsedValue_number by done. eauto.
  - destruct (settings_parsedValue h r) as [v|e]; [by apply IH | eauto].
Qed.

Lemma settings_get_throws_on_number h w rows setting :
  Settings (db w) = Some rows ->
  setting ∈ rows ->
  Type_ setting = "number" ->
  exists e, db_settings_get h w = (Throw e, w).
Proof.
  intros Hrows Hin Hty. unfold db_settings_get. rewrite Hrows.
  destruct (settings_forEach_number h rows empty_object setting Hin Hty) as [e ->]. eauto.
Qed.

(** X12: [db.settings.get] cannot read a table that holds a row of Type
    ['number']: the clause of that label evaluates the undeclared [Setting],
    so the call throws, prints nothing and returns no settings object.  A
    freshly installed database holds such a row, LISTEN_PORT, and there the
    error is that ReferenceError. *)
Theorem settings_get_fails_on_number_row (h : Host) (w : World)
    (rows : list SettingRow) (setting : SettingRow) :
  Settings (db w) = Some rows ->
  setting ∈ rows ->
  Type_ setting = "number" ->
  (exists e, db_settings_get h w = (Throw e, w)) /\
  (rows = [{| Key := "LISTEN_PORT"; Value := "3080"; Type_ := "number" |}] ->
   db_settings_get h w =
   (Throw (ErrorObject ReferenceError "Setting is not defined"), w)).
Proof.
  intros Hrows Hin Hty. unfold db_settings_get. rewrite Hrows. split.
  - destruct (settings_forEach_number h rows empty_object setting Hin Hty) as [e ->]. eauto.
  - by intros ->.
Qed.

Lemma settings_get_fails_on_number_row_witness :
  Settings (db installed_world)
    = Some [{| Key := "LISTEN_PORT"; Value := "3080"; Type_ := "number" |}] /\
  db_settings_get example_host installed_world =
  (Throw (ErrorObject ReferenceError "Setting is not defined"), installed_world).
Proof.
  split; [reflexivity|].
  apply (proj2 (settings_get_fails_on_number_row example_host installed_world
                  [{| Key := "LISTEN_PORT"; Value := "3080"; Type_ := "number" |}]
                  {| Key := "LISTEN_PORT"; Value := "3080"; Type_ := "number" |}
                  eq_refl ltac:(apply elem_of_cons; by left) eq_refl)).
  reflexivity.
Defined.

Lemma setting_Value_Type_valid s value :
  (setting_Value_Type s value).2 ∈ ["string"; "number"; "date"; "object"].
Proof. destruct value; cbn; set_solver. Qed.

Lemma replace_into_Settings_spec h key value type d :
  match replace_into_Settings h key value type d with
  | SqlOk d' =>
      exists added,
        Settings d' = (fun rows => rows ++ added) <$> Settings d /\
        Users d' = Users d /\ Logs d' = Logs d /\
        (sqlite_plain key && sqlite_plain value = true ->
         added = [{| Key := key; Value := value; Type_ := type |}])
  | SqlError _ => sqlite_plain key && sqlite_plain value = true -> Settings d = None
  end.
Proof.
  unfold replace_into_Settings.
  destruct (sqlite_plain key && sqlite_plain value).
  - destruct d as [users [rows|] logs]; cbn; [|done]. by eexists [_].
  - destruct (sqlite_insert h _) as [tuples|msg]; [|done].
    destruct d as [users [rows|] logs]; cbn; [|done].
    destruct (mapM SettingRow_of_values tuples) as [added|]; [|done].
    by exists added.
Qed.

(** The rows a call of [save_entries] adds, entry by entry. *)
Lemma save_entries_tables h s entries w :
  exists added,
    Settings (db (save_entries h s entries w).2)
      = (fun rows => rows ++ added) <$> Settings (db w) /\
    Users (db (save_entries h s entries w).2) = Users (db w) /\
    Logs (db (save_entries h s entries w).2) = Logs (db w) /\
    (Forall (fun entry => sqlite_plain entry.1
                          && sqlite_plain (setting_Value_Type s entry.2).1 = true)
            entries ->
     is_Some (Settings (db w)) ->
     (save_entries h s entries w).1 = Return tt /\
     added = (fun entry => {| Key := entry.1;
                              Value := (setting_Value_Type s entry.2).1;
                              Type_ := (setting_Value_Type s entry.2).2 |}) <$> entries).
Proof.
  revert w. induction entries as [|[key value] rest IH]; intros w.
  - exists []. cbn. destruct (Settings (db w)); cbn; by rewrite ?app_nil_r.
  - cbn [save_entries]. unfold mbind, Js_bind, exec_sql.
    pose proof (replace_into_Settings_spec h key (setting_Value_Type s value).1
                  (setting_Value_Type s value).2 (db w)) as Hone.
    destruct (replace_into_Settings h key _ _ (db w)) as [d'|msg].
    + destruct Hone as (added1 & Hs1 & Hu1 & Hl1 & Hplain1).
      destruct (IH (with_db d' w)) as (added2 & Hs2 & Hu2 & Hl2 & Hplain2).
      cbn [db with_db] in Hs2, Hu2, Hl2, Hplain2.
      exists (added1 ++ added2). rewrite Hs2, Hu2, Hl2, Hs1, Hu1, Hl1.
      split; [|split; [done|split; [done|]]].
      * destruct (Settings (db w)); cbn; by rewrite ?app_assoc.
      * intros Hall Hsome. apply Forall_cons in Hall as [Hhead Hall].
        cbn [fst snd] in Hhead.
        destruct Hplain2 as [Hret ->]; [done | |].
        { rewrite Hs1. by destruct Hsome as [rows ->]. }
        split; [done|]. by rewrite (Hplain1 Hhead).
    + exists []. cbn [snd fst throw].
      split; [destruct (Settings (db w)); cbn; by rewrite ?app_nil_r|].
      split; [done|]. split; [done|].
      intros Hall Hsome. apply Forall_cons in Hall as [Hhead _].
      cbn [fst snd] in Hhead. rewrite (Hone Hhead) in Hsome. by destruct Hsome.
Qed.

(** [db.settings.save] only adds rows to the Settings table. *)
Lemma save_only_adds_rows h s entries w :
  exists added,
    Settings (db (db_settings_save h s entries w).2)
    = (fun rows => rows ++ added) <$> Settings (db w).
Proof.
  destruct entries as [|entry rest].
  - exists []. cbn. destruct (Settings (db w)); cbn; by rewrite ?app_nil_r.
  - unfold db_settings_save, mbind, Js_bind.
    destruct (save_entries_tables h s (entry :: rest) w) as (added & Hs & _).
    exists added.
    by destruct (save_entries h s (entry :: rest) w) as [[[]|e] w'].
Qed.

(** X14: [db.settings.save] never replaces or removes a row, whatever sqlite
    makes of the statements: it only adds rows to the Settings table, after
    the rows that were there, and leaves the Users and Logs tables alone;
    with no entry it returns [false] and adds nothing.  When no key and no
    stored value holds a single quote or a NUL and the table exists, it adds
    exactly one row per entry, in order, with the key as given, the value as
    [switch (typeof value)] made it and a Type among string, number, date
    and object. *)
Theorem settings_save_appends (h : Host) (s : Stringifier)
    (entries : list (string * JsVal)) (w : World) :
  let r := db_settings_save h s entries w in
  exists added,
    Settings (db r.2) = (fun rows => rows ++ added) <$> Settings (db w) /\
    Users (db r.2) = Users (db w) /\
    Logs (db r.2) = Logs (db w) /\
    (entries = [] -> r.1 = Return (JBool false) /\ added = []) /\
    (Forall (fun entry => sqlite_plain entry.1
                          && sqlite_plain (setting_Value_Type s entry.2).1 = true)
            entries ->
     is_Some (Settings (db w)) ->
     r.1 = Return (if decide (entries = []) then JBool false else JUndefined) /\
     added = (fun entry => {| Key := entry.1;
                              Value := (setting_Value_Type s entry.2).1;
                              Type_ := (setting_Value_Type s entry.2).2 |}) <$> entries /\
     Forall (fun row => Type_ row ∈ ["string"; "number"; "date"; "object"]) added).
Proof.
  intros r. subst r. destruct entries as [|entry rest].
  - exists []. cbn. split; [destruct (Settings (db w)); cbn; by rewrite ?app_nil_r|].
    repeat split; constructor.
  - unfold db_settings_save, mbind, Js_bind.
    destruct (save_entries_tables h s (entry :: rest) w)
      as (added & Hs & Hu & Hl & Hplain).
    exists added.
    destruct (save_entries h s (entry :: rest) w) as [[[]|e] w'] eqn:Hsave;
      unfold mret, Js_ret; cbn [fst snd] in *.
    + split; [done|]. split; [done|]. split; [done|]. split; [done|].
      intros Hall Hsome. destruct (Hplain Hall Hsome) as [_ ->].
      split; [done|]. split; [done|].
      apply Forall_fmap, Forall_forall. intros x _. cbn.
      apply setting_Value_Type_valid.
    + split; [done|]. split; [done|]. split; [done|]. split; [done|].
      intros Hall Hsome. by destruct (Hplain Hall Hsome) as [? _].
Qed.

Lemma settings_save_appends_witness :
  Settings (db (db_settings_save example_host example_stringifier
                  [("theme", JString "dark"); ("volume", JNumber 7)]
                  installed_world).2)
  = Some [{| Key := "LISTEN_PORT"; Value := "3080"; Type_ := "number" |};
          {| Key := "theme"; Value := "dark"; Type_ := "string" |};
          {| Key := "volume"; Value := "7"; Type_ := "number" |}] /\
  exists added,
    Settings (db (db_settings_save example_host example_stringifier
                    [("theme", JString "dark"); ("volume", JNumber 7)]
                    installed_world).2)
    = Some ([{| Key := "LISTEN_PORT"; Value := "3080"; Type_ := "number" |}] ++ added) /\
    added = [{| Key := "theme"; Value := "dark"; Type_ := "string" |};
             {| Key := "volume"; Value := "7"; Type_ := "number" |}].
Proof.
  split; [by vm_compute|].
  destruct (settings_save_appends example_host example_stringifier
              [("theme", JString "dark"); ("volume", JNumber 7)] installed_world)
    as (added & Hs & _ & _ & _ & Hplain).
  exists added. split; [exact Hs|].
  refine (proj1 (proj2 (Hplain _ _))).
  - repeat constructor.
  - by eexists.
Defined.

(** ** parse and prepare *)

(** X17: what a scan answers is fixed by the two calls on the root alone,
    whatever the database and the earlier history are: [parse] returns
    [false] exactly when the root is not accessible, returns [undefined]
    exactly when the root is accessible and its listing is empty, and is
    rejected in every other case. *)
Theorem parse_answer_by_root (h : Host) (rootPath : string) (w : World) :
  ((parse h rootPath w).1 = Return (JBool false) <-> fs_access h rootPath = false) /\
  ((parse h rootPath w).1 = Return JUndefined <->
   fs_access h rootPath = true /\ fs_readdir h rootPath = Some []) /\
  (forall v, (parse h rootPath w).1 = Return v -> v = JBool false \/ v = JUndefined).
Proof.
  rewrite parse_returns. unfold parse_outcome.
  destruct (fs_access h rootPath).
  - destruct (fs_readdir h rootPath) as [[|file rest]|];
      (split; [done|]); (split; [split; try done; by intros [_ ?]|]);
      intros v Hv; try done; injection Hv as <-; by right.
  - split; [done|]. split; [split; [done|by intros [? _]]|].
    intros v Hv. injection Hv as <-. by left.
Qed.

(** X18: the only file-system calls of a scan are the [access] of the root
    and, when that succeeds, the [readdir] of the root: [parse] never lists
    a media directory and never opens a file, on any file system. *)
Theorem parse_reads_only_the_root (h : Host) (rootPath : string) (w : World) :
  fs_calls (parse h rootPath w).2 =
  fs_calls w ++ fs_promises_access rootPath ::
    (if fs_access h rootPath then [fs_promises_readdir rootPath] else []).
Proof.
  unfold parse, mbind, Js_bind, fs_promises_access_call, fs_promises_readdir_call.
  destruct (fs_access h rootPath); cbn [negb fs_calls with_fs_calls].
  - destruct (fs_readdir h rootPath) as [[|file rest]|].
    + unfold identify_media_paths, mbind, Js_bind.
      match goal with |- context [db_log ?a ?b ?c ?d ?e] =>
        pose proof (db_log_keeps a b c d e) as Hk;
        destruct (db_log_returns a b c d e) as [v Hv];
        destruct (db_log a b c d e) as [[v'|e'] w'] end; [|done].
      unfold outside_db in Hk. cbn [snd fs_calls with_fs_calls] in Hk.
      injection Hk as Hfs _ _. cbn. rewrite Hfs. by rewrite <- app_assoc.
    + unfold identify_media_paths, mbind, Js_bind.
      match goal with |- context [db_log ?a ?b ?c ?d ?e] =>
        pose proof (db_log_keeps a b c d e) as Hk;
        destruct (db_log_returns a b c d e) as [v Hv];
        destruct (db_log a b c d e) as [[v'|e'] w'] end; [|done].
      unfold outside_db in Hk. cbn [snd fs_calls with_fs_calls] in Hk.
      injection Hk as Hfs _ _. cbn [forEach_rootContents].
      change (forEach_file h rootPath file noPaths w')
        with (@Throw MediaPaths
                (ErrorObject TypeError "file.isDirectory is not a function"), w').
      cbn [snd]. rewrite Hfs. by rewrite <- app_assoc.
    + cbn. by rewrite <- app_assoc.
  - match goal with |- context [db_log ?a ?b ?c ?d ?e] =>
      pose proof (db_log_keeps a b c d e) as Hk;
      destruct (db_log_returns a b c d e) as [v Hv];
      destruct (db_log a b c d e) as [[v'|e'] w'] end; [|done].
    unfold outside_db in Hk. cbn [snd fs_calls with_fs_calls] in Hk.
    injection Hk as Hfs _ _. cbn. by rewrite Hfs.
Qed.

(** X19: with a library root configured and [librarian] bound to the
    librarian module, [prepare] registers the cron job only if the first
    scan returns: when the scan returns, [false] included, the job of every
    thirtieth minute is registered; when the scan is rejected, [prepare] is
    rejected with the same error and no job is registered.  So a library
    that is accessible and not empty is scanned once and never again. *)
Theorem prepare_schedules_after_first_scan (h : Host) (w w1 : World) (v : JsVal)
    (root : string) :
  LIBRARY_ROOT h = Some root ->
  root <> "" ->
  db_createDefaults h w = (Return v, w1) ->
  let r := prepare h (Some (parse h)) w in
  match (parse h root w1).1 with
  | Return _ =>
      r.1 = Return JUndefined /\
      cron_jobs r.2 = cron_jobs w ++ [{| pattern := "0 */30 * * * *"; job_root := root |}]
  | Throw e => r.1 = Throw e /\ cron_jobs r.2 = cron_jobs w
  end /\
  (forall file rest,
     fs_access h root = true -> fs_readdir h root = Some (file :: rest) ->
     r.1 = Throw (ErrorObject TypeError "file.isDirectory is not a function") /\
     cron_jobs r.2 = cron_jobs w).
Proof.
  intros Hroot Hne Hdefaults r.
  assert (match (parse h root w1).1 with
          | Return _ =>
              r.1 = Return JUndefined /\
              cron_jobs r.2
              = cron_jobs w ++ [{| pattern := "0 */30 * * * *"; job_root := root |}]
          | Throw e => r.1 = Throw e /\ cron_jobs r.2 = cron_jobs w
          end) as Hmain.
  { subst r.
    pose proof (db_createDefaults_keeps h w) as Hk.
    rewrite Hdefaults in Hk.
    unfold outside_db in Hk. cbn [snd] in Hk. injection Hk as _ Hcron _.
    pose proof (parse_keeps h root w1) as Hkeeps.
    unfold outside_librarian in Hkeeps. injection Hkeeps as Hjobs _.
    apply String.eqb_neq in Hne.
    unfold prepare, mbind, Js_bind. rewrite Hdefaults, Hroot, Hne.
    destruct (parse h root w1) as [[result|e] w2]; cbn [fst snd] in *.
    - cbn. by rewrite Hjobs, Hcron.
    - by rewrite Hjobs, Hcron. }
  split; [exact Hmain|].
  intros file rest Haccess Hlist.
  rewrite parse_returns in Hmain. unfold parse_outcome in Hmain.
  by rewrite Haccess, Hlist in Hmain.
Qed.

Lemma prepare_schedules_after_first_scan_witness :
  LIBRARY_ROOT example_host = Some "/lib" /\
  (prepare example_host (Some (parse example_host)) fresh_world).1 =
    Throw (ErrorObject TypeError "file.isDirectory is not a function") /\
  cron_jobs (prepare example_host (Some (parse example_host)) fresh_world).2 = [].
Proof.
  assert ("/lib" <> "") as Hne by discriminate.
  assert (db_createDefaults example_host fresh_world
          = (Return (JBool true), installed_world)) as Hrun by (vm_compute; reflexivity).
  split; [reflexivity|].
  exact (proj2 (prepare_schedules_after_first_scan example_host fresh_world
                  installed_world (JBool true) "/lib" eq_refl Hne Hrun)
           "Movies" ["misc"] eq_refl eq_refl).
Defined.

(** ** The log of an inaccessible root *)

Lemma unable_to_access_quote rootPath :
  includes_char (unable_to_access rootPath) "'" = includes_char rootPath "'".
Proof.
  unfold unable_to_access. rewrite !includes_char_append.
  cbn. by rewrite orb_false_r.
Qed.

(** X20: when the root cannot be accessed, its path holds no single quote
    and the Logs table exists, [parse] returns [false] and the Logs table
    gains exactly one row: at level ERROR, with the "Unable to access"
    message as escaped, a backslash before each double quote included.  The
    other tables and the catalog are as before. *)
Theorem parse_inaccessible_root_stores_one_row (h : Host) (rootPath : string)
    (w : World) (rows : list LogRow) :
  fs_access h rootPath = false ->
  includes_char rootPath "'" = false ->
  Logs (db w) = Some rows ->
  let w' := (parse h rootPath w).2 in
  (parse h rootPath w).1 = Return (JBool false) /\
  Logs (db w') =
    Some (rows ++ [{| UUID := randomUUID h (readings w);
                      DateTime := formatDateSQL (toISOString h (readings w)) true;
                      Level := "ERROR";
                      Message := mysql_real_escape_string (unable_to_access rootPath) |}]) /\
  Users (db w') = Users (db w) /\
  Settings (db w') = Settings (db w) /\
  catalog w' = catalog w.
Proof.
  intros Hacc Hquote Hlogs w'. subst w'.
  split; [rewrite parse_returns; unfold parse_outcome; by rewrite Hacc|].
  split; [|split; [|split; [|apply parse_catalog]]];
    unfold parse, mbind at 1, Js_bind at 1, fs_promises_access_call;
    rewrite Hacc; cbn [negb]; unfold mbind, Js_bind;
    rewrite db_log_error by apply unable_to_access_nonempty;
    unfold insert_into_Logs;
    rewrite sqlite_plain_escape, unable_to_access_quote, Hquote;
    cbn [negb db with_fs_calls]; by rewrite Hlogs.
Qed.

Lemma parse_inaccessible_root_stores_one_row_witness :
  fs_access example_host "/missing" = false /\
  Logs (db (parse example_host "/missing" installed_world).2) =
    Some [{| UUID := "00000000-0000-4000-8000-1";
             DateTime := "2022-02-13 12:00:00";
             Level := "ERROR";
             Message := mysql_real_escape_string (unable_to_access "/missing") |}].
Proof.
  split; [reflexivity|].
  exact (proj1 (proj2 (parse_inaccessible_root_stores_one_row example_host "/missing"
                         installed_world [] eq_refl eq_refl eq_refl))).
Defined.

(** ** The Settings table once installed *)

(** A scan writes no table but Logs. *)
Lemma parse_tables h rootPath w :
  Users (db (parse h rootPath w).2) = Users (db w) /\
  Settings (db (parse h rootPath w).2) = Settings (db w).
Proof.
  unfold parse, mbind, Js_bind, fs_promises_access_call, fs_promises_readdir_call.
  destruct (fs_access h rootPath); cbn [negb].
  - destruct (fs_readdir h rootPath) as [[|file rest]|]; [| |done].
    + unfold identify_media_paths, mbind, Js_bind.
      match goal with |- context [db_log ?a ?b ?c ?d ?e] =>
        destruct (db_log_tables a b c d e) as (added & _ & Hu & Hs & _);
        destruct (db_log_returns a b c d e) as [v Hv];
        destruct (db_log a b c d e) as [[v'|e'] w'] end; [|done].
      by cbn in *.
    + unfold identify_media_paths, mbind, Js_bind.
      match goal with |- context [db_log ?a ?b ?c ?d ?e] =>
        destruct (db_log_tables a b c d e) as (added & _ & Hu & Hs & _);
        destruct (db_log_returns a b c d e) as [v Hv];
        destruct (db_log a b c d e) as [[v'|e'] w'] end; [|done].
      by cbn in *.
  - match goal with |- context [db_log ?a ?b ?c ?d ?e] =>
      destruct (db_log_tables a b c d e) as (added & _ & Hu & Hs & _);
      destruct (db_log_returns a b c d e) as [v Hv];
      destruct (db_log a b c d e) as [[v'|e'] w'] end; [|done].
    by cbn in *.
Qed.

(** X21: on a database this code has installed, [db.settings.get] never
    returns.  [db.createDefaults] puts the LISTEN_PORT row, of Type
    ['number'], first in the Settings table it creates; no function of the
    sources removes or replaces a row of that table ([db.createDefaults],
    [db.log], [db.settings.save], [db.settings.get] and [parse] all leave the
    row in place, whatever their arguments); and with that row first
    [db.settings.get] throws the ReferenceError of the undeclared [Setting]
    before it has read anything else. *)
Theorem settings_get_never_returns_once_installed (h : Host) (w : World) :
  (Settings (db w) = None ->
   forall v, (db_createDefaults h w).1 = Return v ->
   installed_settings (db_createDefaults h w).2) /\
  (installed_settings w ->
   db_settings_get h w
     = (Throw (ErrorObject ReferenceError "Setting is not defined"), w) /\
   installed_settings (db_createDefaults h w).2 /\
   (forall message level suppressOutput,
      installed_settings (db_log h message level suppressOutput w).2) /\
   (forall s entries, installed_settings (db_settings_save h s entries w).2) /\
   (forall rootPath, installed_settings (parse h rootPath w).2)).
Proof.
  unfold installed_settings. split.
  - intros Hnone v Hret. pose proof (db_createDefaults_spec h w) as Hspec.
    cbv zeta in Hspec. rewrite Hnone in Hspec.
    destruct (Users (db w)), (bcrypt_hash h "admin"); destruct Hspec as [Hv Hdb];
      rewrite ?Hdb; cbn [Settings default]; eauto.
    by rewrite Hv in Hret.
  - intros [rest Hrows]. split; [|split; [|split; [|split]]].
    + unfold db_settings_get. by rewrite Hrows.
    + pose proof (db_createDefaults_spec h w) as Hspec.
      cbv zeta in Hspec. rewrite Hrows in Hspec.
      destruct (Users (db w)), (bcrypt_hash h "admin"); destruct Hspec as [_ Hdb];
        rewrite Hdb; cbn [Settings default]; eauto.
    + intros message level suppressOutput.
      destruct (db_log_tables h message level suppressOutput w)
        as (added & _ & _ & Hs & _).
      rewrite Hs, Hrows. eauto.
    + intros s entries.
      destruct (save_only_adds_rows h s entries w) as (added & Hs).
      rewrite Hs, Hrows. cbn. eauto.
    + intros rootPath. destruct (parse_tables h rootPath w) as [_ Hs].
      rewrite Hs, Hrows. eauto.
Qed.

Lemma settings_get_never_returns_once_installed_witness :
  Settings (db fresh_world) = None /\
  installed_settings installed_world /\
  db_settings_get example_host
    (db_settings_save example_host example_stringifier [("theme", JString "dark")]
       installed_world).2
  = (Throw (ErrorObject ReferenceError "Setting is not defined"),
     (db_settings_save example_host example_stringifier [("theme", JString "dark")]
        installed_world).2).
Proof.
  split; [reflexivity|].
  pose proof (proj1 (settings_get_never_returns_once_installed example_host fresh_world)
                eq_refl (JBool true) eq_refl) as Hinstalled.
  split; [exact Hinstalled|].
  pose proof (proj1 (proj2 (proj2 (proj2
                (proj2 (settings_get_never_returns_once_installed example_host
                          installed_world) Hinstalled))))
                example_stringifier [("theme", JString "dark")]) as Hsaved.
  exact (proj1 (proj2 (settings_get_never_returns_once_installed example_host _)
                  Hsaved)).
Defined.
